(** * Jira Manager Pro: ticket parsing, facets, transitions and analytics

    A shallow embedding of the pure logic of [src/project.jsx] and of the
    analytics dashboard component, with the properties of the
    specification stated and proved (or refuted) over it.

    Conventions of the embedding.
    - A JavaScript string is the list of its UTF-16 code units ([jsstring]);
      string literals of the source are written [js "..."], which decodes
      the UTF-8 bytes of the Rocq literal into code units.
    - [null] / [undefined] results are [None].
    - A plain JavaScript object used as a dictionary is an association list
      in [Object.keys] order.
    - React state is an explicit record; a state setter is a record update.
    - JavaScript numbers that hold counts are integers ([Z]); averages and
      percentages are exact rationals ([Q]), i.e. the rounding of IEEE
      doubles is not modelled. *)

From Stdlib Require Import ZArith NArith List Bool Lia String Ascii.
From Stdlib Require Import QArith Qabs Lqa.
From Stdlib Require Import Sorting.Permutation Sorting.Sorted.
Import ListNotations.

Set Implicit Arguments.

(* ================================================================== *)
(** * The JavaScript runtime functions the program calls *)
(* ================================================================== *)

Module Js.

Local Open Scope N_scope.

(** A string value: its UTF-16 code units. *)
Definition jsstring := list N.

(** Code units of a source literal (the Rocq literal holds UTF-8 bytes). *)
Fixpoint js (s : string) : jsstring :=
  match s with
  | EmptyString => []
  | String a s1 =>
    let b := N_of_ascii a in
    if b <? 128 then b :: js s1
    else
      match s1 with
      | EmptyString => [65533]
      | String a2 s2 =>
        let c2 := N_of_ascii a2 mod 64 in
        if b <? 224 then ((b mod 32) * 64 + c2) :: js s2
        else
          match s2 with
          | EmptyString => [65533]
          | String a3 s3 =>
            let c3 := N_of_ascii a3 mod 64 in
            if b <? 240 then ((b mod 16) * 4096 + c2 * 64 + c3) :: js s3
            else
              match s3 with
              | EmptyString => [65533]
              | String a4 s4 =>
                let c4 := N_of_ascii a4 mod 64 in
                let cp := (b mod 8) * 262144 + c2 * 4096 + c3 * 64 + c4 in
                let v := cp - 65536 in
                (55296 + v / 1024) :: (56320 + v mod 1024) :: js s4
              end
          end
      end
  end.

Arguments js s%_string.

(** [===] on two strings. *)
Definition streq (a b : jsstring) : bool :=
  if list_eq_dec N.eq_dec a b then true else false.

(** Truthiness of a string: only the empty string is falsy. *)
Definition truthy (s : jsstring) : bool :=
  match s with [] => false | _ :: _ => true end.

(** [a || b] on strings. *)
Definition orElse (a b : jsstring) : jsstring := if truthy a then a else b.

(** ECMAScript LineTerminator code points: LF, CR, LS, PS. *)
Definition isLineTerminator (c : N) : bool :=
  (c =? 10) || (c =? 13) || (c =? 8232) || (c =? 8233).

(** ECMAScript WhiteSpace and LineTerminator: what [trim] strips and what
    the regular expression class [\s] matches. *)
Definition isWhiteSpace (c : N) : bool :=
  (c =? 9) || (c =? 11) || (c =? 12) || (c =? 32) || (c =? 160)
  || (c =? 5760) || ((8192 <=? c) && (c <=? 8202)) || (c =? 8239)
  || (c =? 8287) || (c =? 12288) || (c =? 65279) || isLineTerminator c.

Fixpoint dropWhile (p : N -> bool) (s : jsstring) : jsstring :=
  match s with
  | [] => []
  | c :: s' => if p c then dropWhile p s' else s
  end.

Fixpoint takeWhile (p : N -> bool) (s : jsstring) : jsstring :=
  match s with
  | [] => []
  | c :: s' => if p c then c :: takeWhile p s' else []
  end.

Definition trimStart (s : jsstring) : jsstring := dropWhile isWhiteSpace s.
Definition trimEnd (s : jsstring) : jsstring :=
  rev (dropWhile isWhiteSpace (rev s)).

(** [String.prototype.trim]. *)
Definition trim (s : jsstring) : jsstring := trimEnd (trimStart s).

(** [s.startsWith(p)]. *)
Fixpoint startsWith (p s : jsstring) : bool :=
  match p, s with
  | [], _ => true
  | _ :: _, [] => false
  | a :: p', b :: s' => (a =? b) && startsWith p' s'
  end.

(** [s.includes(p)]. *)
Fixpoint includes (p s : jsstring) : bool :=
  startsWith p s ||
  match s with
  | [] => false
  | _ :: s' => includes p s'
  end.

(** [String.prototype.split] with a non-empty separator: the input is
    scanned left to right; at each separator occurrence the piece read so
    far is emitted and the scan resumes after the separator.  [skip] counts
    the code units of a matched separator still to be passed over, [cur] is
    the current piece, reversed. *)
Fixpoint splitFrom (sep : jsstring) (skip : nat) (cur s : jsstring)
  : list jsstring :=
  match s with
  | [] => [rev cur]
  | c :: s' =>
    match skip with
    | S k => splitFrom sep k cur s'
    | O =>
      if startsWith sep s
      then rev cur :: splitFrom sep (List.length sep - 1) [] s'
      else splitFrom sep 0 (c :: cur) s'
    end
  end.

Definition split (sep s : jsstring) : list jsstring := splitFrom sep 0 [] s.

(** Lexicographic comparison of code units: the order of [<] on strings
    and of [Array.prototype.sort] without a comparator. *)
Fixpoint codeUnitCompare (a b : jsstring) : comparison :=
  match a, b with
  | [], [] => Eq
  | [], _ :: _ => Lt
  | _ :: _, [] => Gt
  | x :: a', y :: b' =>
    match x ?= y with
    | Eq => codeUnitCompare a' b'
    | o => o
    end
  end.

Section Sort.
Variable A : Type.
(** The comparator: negative, zero or positive; [NaN] counts as zero and
    is represented by [0]. *)
Variable comparefn : A -> A -> Z.

(** Stable insertion: [x] preceded every element of [l] in the input. *)
Fixpoint insertSorted (x : A) (l : list A) : list A :=
  match l with
  | [] => [x]
  | y :: l' =>
    if (comparefn x y <=? 0)%Z then x :: l else y :: insertSorted x l'
  end.

(** [Array.prototype.sort(comparefn)]: a stable sort.  For a consistent
    comparator every stable sort returns the same array, which is the
    one computed here. *)
Fixpoint sortWith (l : list A) : list A :=
  match l with
  | [] => []
  | x :: l' => insertSorted x (sortWith l')
  end.
End Sort.

(** [Array.prototype.sort()] on an array of strings. *)
Definition sortDefault (l : list jsstring) : list jsstring :=
  sortWith (fun a b => match codeUnitCompare a b with
                       | Lt => -1 | Eq => 0 | Gt => 1 end)%Z l.

(** A [Set] of strings, in insertion order. *)
Definition setAdd (x : jsstring) (s : list jsstring) : list jsstring :=
  if existsb (streq x) s then s else s ++ [x].

End Js.

(* ================================================================== *)
(** * project.jsx *)
(* ================================================================== *)

(** ** apiService *)

Module ApiService.
Import Js.

(** The object literal [payload]: its fields in insertion order. *)
Definition Payload := list (jsstring * jsstring).

Record Request := mkRequest {
  endpoint : jsstring;
  method : jsstring;
  body : Payload   (* the object handed to JSON.stringify *)
}.

(** [transitionTicket(key, transitionName, comment = null)]; an absent or
    [null] comment is [None]. *)
Definition transitionTicket (key transitionName : jsstring)
  (comment : option jsstring) : Request :=
  let payload := [(js "transition_name", transitionName)] in
  let payload :=
    match comment with
    | Some c =>
      if truthy c && truthy (trim c)
      then payload ++ [(js "comment", trim c)]
      else payload
    | None => payload
    end in
  mkRequest (js "/tickets/" ++ key ++ js "/transition") (js "POST") payload.

End ApiService.

(** ** parseTicketInfo and the fallback of TicketCard *)

Module Parser.
Import Js.
Local Open Scope N_scope.

Record TicketInfo := mkTicketInfo {
  key : jsstring;
  summary : jsstring;
  assignee : jsstring;
  issueType : jsstring;
  priority : jsstring
}.

Definition notClosing (c : N) : bool := negb (c =? 93).

(** One attempt of [/\[([^\]]+)\]/] at the head of [s]: an opening
    bracket, the longest non-empty run of code units other than the closing
    bracket, and a closing bracket.  The result is capture group 1. *)
Definition matchBracketAt (s : jsstring) : option jsstring :=
  match s with
  | [] => None
  | c :: s' =>
    if c =? 91 then
      match takeWhile notClosing s', dropWhile notClosing s' with
      | (_ :: _) as grp, _ :: _ => Some grp
      | _, _ => None
      end
    else None
  end.

(** The loop [while ((match = bracketRegex.exec(rest)) !== null)] with the
    global flag: the leftmost match from [lastIndex] on, then [lastIndex]
    moves past it.  [skip] counts code units of the last match still to be
    passed over. *)
Fixpoint bracketLoop (skip : nat) (s : jsstring) : list jsstring :=
  match s with
  | [] => []
  | _ :: s' =>
    match skip with
    | S k => bracketLoop k s'
    | O =>
      match matchBracketAt s with
      | Some grp => grp :: bracketLoop (S (List.length grp)) s'
      | None => bracketLoop 0 s'
      end
    end
  end.

Definition extractBrackets (rest : jsstring) : list jsstring :=
  bracketLoop 0 rest.

(** [\s*\[] at the head of [s]. *)
Definition spacesThenBracket (s : jsstring) : bool :=
  match dropWhile isWhiteSpace s with
  | c :: _ => c =? 91
  | [] => false
  end.

(** The lazy group [(.+?)] of [/^(.+?)\s*\[/] once it holds [taken]
    (reversed, non-empty): stop as soon as [\s*\[] matches what follows,
    else take one more code unit, which may not be a line terminator. *)
Fixpoint lazyGroup (taken s : jsstring) : option jsstring :=
  if spacesThenBracket s then Some (rev taken)
  else
    match s with
    | [] => None
    | c :: s' =>
      if isLineTerminator c then None else lazyGroup (c :: taken) s'
    end.

(** [rest.match(/^(.+?)\s*\[/)], capture group 1. *)
Definition summaryMatch (rest : jsstring) : option jsstring :=
  match rest with
  | [] => None
  | c :: s' => if isLineTerminator c then None else lazyGroup [c] s'
  end.

(** [summaryMatch ? summaryMatch[1].trim() : rest.trim()]. *)
Definition extractSummary (rest : jsstring) : jsstring :=
  match summaryMatch rest with
  | Some m => trim m
  | None => trim rest
  end.

Definition mapAssignee (b0 : jsstring) : jsstring :=
  if streq b0 (js "Unassigned") then js "Non assigné" else b0.

(** [parseTicketInfo(ticketString)] for a string argument.  Nothing in the
    body throws on a string, so the [catch] branch is not reached. *)
Definition parseTicketInfo (ticketString : jsstring) : option TicketInfo :=
  match split (js ": ") ticketString with
  | p0 :: rest :: _ =>
    let key := trim p0 in
    match extractBrackets rest with
    | b0 :: b1 :: b2 :: _ =>
      Some (mkTicketInfo key (extractSummary rest) (mapAssignee b0) b1
              (orElse b2 (js "Medium")))
    | b0 :: b1 :: _ =>
      Some (mkTicketInfo key (extractSummary rest) (mapAssignee b0) b1
              (js "Medium"))
    | _ => None
    end
  | _ => None
  end.

(** The key of the degraded card of [TicketCard], shown when
    [parseTicketInfo] returns [null]: [ticket.split(':')[0].trim()]. *)
Definition fallbackKey (ticket : jsstring) : jsstring :=
  trim (hd [] (split (js ":") ticket)).

(** [X] does not end with white space. *)
Definition endsClean (X : jsstring) : Prop :=
  match rev X with [] => True | c :: _ => isWhiteSpace c = false end.

(** The code units other than the colon. *)
Definition notColon (c : N) : bool := negb (c =? 58).

End Parser.

(** ** TransitionModal *)

Module TransitionModal.
Import Js ApiService.

Section Host.
(** [String.prototype.toLowerCase], provided by the host. *)
Variable toLowerCase : jsstring -> jsstring.

Definition isTransitionToDone (transitionName : jsstring) : bool :=
  let normalizedTransition := toLowerCase transitionName in
  includes (js "done") normalizedTransition
  || includes (js "terminé") normalizedTransition
  || includes (js "termine") normalizedTransition
  || includes (js "close") normalizedTransition
  || includes (js "resolve") normalizedTransition.

(** The state of the modal: its [useState] cells and the [loading] prop. *)
Record ModalState := mkModal {
  selectedTransition : jsstring;
  comment : jsstring;
  availableTransitions : list jsstring;
  loadingTransitions : bool;
  loading : bool
}.

(** The [disabled] attribute of the submit button. *)
Definition submitDisabled (st : ModalState) : bool :=
  loading st || negb (truthy (selectedTransition st))
  || loadingTransitions st
  || (isTransitionToDone (selectedTransition st)
      && negb (truthy (trim (comment st)))).

(** [handleSubmit]: the request [onSubmit] issues through
    [handleTransitionTicket], if any. *)
Definition handleSubmit (ticketKey : jsstring) (st : ModalState)
  : option Request :=
  if truthy (selectedTransition st)
  then Some (transitionTicket ticketKey (selectedTransition st)
               (Some (comment st)))
  else None.

Inductive ModalEvent :=
| SelectTransition (value : jsstring)   (* onChange of the select *)
| EditComment (value : jsstring)        (* onChange of the textarea *)
| TransitionsLoading                    (* loadTransitions starts *)
| TransitionsLoaded (names : list jsstring)
| PressSubmit                           (* activation of the submit button *)
| SubmitSettled (success : bool)        (* the request resolved *)
| CloseModal.

(** One event of the modal; a disabled button dispatches no submit event. *)
Definition modalStep (ticketKey : jsstring) (st : ModalState)
  (ev : ModalEvent) : ModalState * option Request :=
  match ev with
  | SelectTransition v =>
    (mkModal v (comment st) (availableTransitions st)
       (loadingTransitions st) (loading st), None)
  | EditComment v =>
    (mkModal (selectedTransition st) v (availableTransitions st)
       (loadingTransitions st) (loading st), None)
  | TransitionsLoading =>
    (mkModal (selectedTransition st) (comment st) (availableTransitions st)
       true (loading st), None)
  | TransitionsLoaded names =>
    (mkModal (selectedTransition st) (comment st) names false (loading st),
     None)
  | PressSubmit =>
    if submitDisabled st then (st, None)
    else
      match handleSubmit ticketKey st with
      | Some rq =>
        (mkModal (selectedTransition st) (comment st)
           (availableTransitions st) (loadingTransitions st) true, Some rq)
      | None => (st, None)
      end
  | SubmitSettled success =>
    if success
    then (mkModal [] [] (availableTransitions st) (loadingTransitions st)
            false, None)
    else (mkModal (selectedTransition st) (comment st)
            (availableTransitions st) (loadingTransitions st) false, None)
  | CloseModal => (mkModal [] [] [] (loadingTransitions st) (loading st), None)
  end.

(** The requests sent along a sequence of events. *)
Fixpoint modalRun (ticketKey : jsstring) (st : ModalState)
  (evs : list ModalEvent) : list Request :=
  match evs with
  | [] => []
  | ev :: evs' =>
    let (st', out) := modalStep ticketKey st ev in
    match out with
    | Some rq => rq :: modalRun ticketKey st' evs'
    | None => modalRun ticketKey st' evs'
    end
  end.

End Host.

(** The value of a payload field, [None] when the field is absent. *)
Fixpoint field (name : jsstring) (p : Payload) : option jsstring :=
  match p with
  | [] => None
  | (k, v) :: p' => if streq k name then Some v else field name p'
  end.

(** A request passes the closure-comment gate when it names a transition
    and, if that transition leads to a done status, carries a comment that
    is not empty. *)
Definition gated (toLowerCase : jsstring -> jsstring) (rq : Request) : Prop :=
  exists name,
    field (js "transition_name") (body rq) = Some name
    /\ name <> []
    /\ (isTransitionToDone toLowerCase name = true ->
        exists c, field (js "comment") (body rq) = Some c /\ c <> []).

(** The words that make a transition a closing one. *)
Definition closingWords : list jsstring :=
  [js "done"; js "terminé"; js "termine"; js "close"; js "resolve"].

(** A string of Basic Latin and Latin-1 code units. *)
Definition latin1 (s : jsstring) : bool := forallb (fun c => (c <? 256)%N) s.

Definition isSettled (ev : ModalEvent) : bool :=
  match ev with
  | SubmitSettled _ => true
  | _ => false
  end.

(** The modal with a transition selected and a comment typed, nothing
    in flight. *)
Definition ready (name c : jsstring) (names : list jsstring) : ModalState :=
  mkModal name c names false false.

End TransitionModal.

(** ** JiraManagerPro: board state, status order and filter facets *)

Module JiraManagerPro.
Import Js Parser.

(** The [tickets] object: status name to encoded tickets, in
    [Object.keys] order. *)
Definition Board := list (jsstring * list jsstring).

Record BoardState := mkBoardState {
  tickets : Board;
  loading : bool;
  error : jsstring
}.

(** How [await apiService.getTickets(...)] settles: with the board, or by
    throwing an error whose [message] is given (empty when it has none). *)
Inductive Settled :=
| Resolved (data : Board)
| Rejected (message : jsstring).

(** [loadTickets], from the call to the end of its [finally] block. *)
Definition loadTickets (st : BoardState) (outcome : Settled) : BoardState :=
  let st := mkBoardState (tickets st) true (error st) in      (* setLoading(true) *)
  let st := mkBoardState (tickets st) (loading st) [] in      (* setError('') *)
  let st :=
    match outcome with
    | Resolved data => mkBoardState data (loading st) (error st)
    | Rejected message =>
      let st := mkBoardState (tickets st) (loading st)
                  (orElse message (js "Impossible de charger les tickets")) in
      mkBoardState [] (loading st) (error st)                 (* setTickets({}) *)
    end in
  mkBoardState (tickets st) false (error st).                 (* finally *)

(** The object literal [statusOrder]. *)
Definition statusOrder : list (jsstring * Z) :=
  [ (js "À faire", 1); (js "A faire", 1); (js "Todo", 1); (js "TO DO", 1);
    (js "Open", 1);
    (js "En cours", 2); (js "IN PROGRESS", 2); (js "In Progress", 2);
    (js "Progress", 2);
    (js "Terminé", 3); (js "Terminée", 3); (js "Terminées", 3);
    (js "Done", 3); (js "DONE", 3); (js "Closed", 3); (js "Resolved", 3) ]%Z.

(** The property names every object literal inherits from
    [Object.prototype]; their values are functions or objects. *)
Definition objectPrototypeNames : list jsstring :=
  [ js "constructor"; js "hasOwnProperty"; js "isPrototypeOf";
    js "propertyIsEnumerable"; js "toLocaleString"; js "toString";
    js "valueOf"; js "__proto__"; js "__defineGetter__";
    js "__defineSetter__"; js "__lookupGetter__"; js "__lookupSetter__" ].

Definition isInherited (a : jsstring) : bool :=
  existsb (streq a) objectPrototypeNames.

(** The value of [statusOrder[a] || 999]: a number, or the inherited
    function or object, named by its property. *)
Inductive OrderValue :=
| OrderNum (n : Z)
| OrderInherited (name : jsstring).

Fixpoint ownProperty (a : jsstring) (o : list (jsstring * Z)) : option Z :=
  match o with
  | [] => None
  | (k, v) :: o' => if streq a k then Some v else ownProperty a o'
  end.

Definition orderOf (a : jsstring) : OrderValue :=
  match ownProperty a statusOrder with
  | Some n => if (n =? 0)%Z then OrderNum 999 else OrderNum n
  | None => if isInherited a then OrderInherited a else OrderNum 999
  end.

Section StatusOrder.
(** [String.prototype.localeCompare] in the host's default locale. *)
Variable localeCompare : jsstring -> jsstring -> Z.

(** The comparator handed to [sort]; the subtraction of a non-number is
    [NaN], which [sort] reads as [0]. *)
Definition compareStatuses (a b : jsstring) : Z :=
  match orderOf a, orderOf b with
  | OrderNum orderA, OrderNum orderB =>
    if (orderA =? orderB)%Z then localeCompare a b else (orderA - orderB)%Z
  | OrderInherited na, OrderInherited nb =>
    if streq na nb then localeCompare a b else 0%Z
  | _, _ => 0%Z
  end.

Definition getOrderedStatuses (statuses : list jsstring) : list jsstring :=
  sortWith compareStatuses statuses.

(** [const statuses = getOrderedStatuses(Object.keys(tickets))]. *)
Definition statuses (board : Board) : list jsstring :=
  getOrderedStatuses (map fst board).
End StatusOrder.

(** [Object.values(tickets).flat()]. *)
Definition allTickets (board : Board) : list jsstring :=
  flat_map snd board.

Definition uniqueAssignees (board : Board) : list jsstring :=
  fold_left
    (fun assignees ticket =>
       match parseTicketInfo ticket with
       | Some ticketInfo =>
         if truthy (assignee ticketInfo)
            && negb (streq (assignee ticketInfo) (js "Non assigné"))
         then setAdd (assignee ticketInfo) assignees
         else assignees
       | None => assignees
       end)
    (allTickets board) [].

Definition uniqueTypes (board : Board) : list jsstring :=
  sortDefault
    (fold_left
       (fun types ticket =>
          match parseTicketInfo ticket with
          | Some ticketInfo =>
            if truthy (issueType ticketInfo)
            then setAdd (issueType ticketInfo) types
            else types
          | None => types
          end)
       (allTickets board) []).

Definition AVAILABLE_PRIORITIES : list jsstring :=
  [js "Low"; js "Medium"; js "High"; js "Highest"].

(** The priorities seen on the board, before the canonical ones are
    added. *)
Definition observedPriorities (board : Board) : list jsstring :=
  fold_left
    (fun priorities ticket =>
       match parseTicketInfo ticket with
       | Some ticketInfo =>
         if truthy (priority ticketInfo)
         then setAdd (priority ticketInfo) priorities
         else priorities
       | None => priorities
       end)
    (allTickets board) [].

Definition uniquePriorities (board : Board) : list jsstring :=
  sortDefault
    (fold_left (fun priorities priority => setAdd priority priorities)
       AVAILABLE_PRIORITIES (observedPriorities board)).

Definition ticketTypes (board : Board) : list jsstring :=
  match uniqueTypes board with
  | [] => [js "Task"; js "Bug"; js "Story"; js "Epic"]
  | types => types
  end.

End JiraManagerPro.

(* ================================================================== *)
(** * The analytics dashboard component *)
(* ================================================================== *)

Module AnalyticsDashboard.
Import Js.
Local Open Scope Q_scope.

Record WeeklyBucket := mkWeek {
  week : jsstring;
  count : Z
}.

(** A distribution object: label to count, in [Object.keys] order. *)
Definition Distribution := list (jsstring * Z).

(** The [analytics] state, as received from the backend. *)
Record Analytics := mkAnalytics {
  tickets_per_week : list WeeklyBucket;
  priority_distribution : Distribution;
  type_distribution : Distribution;
  assignment_distribution : Distribution;
  avg_resolution_time : Q;
  total_tickets : Z;
  resolved_tickets : Z;
  weekly_average : Q
}.

Record Metrics := mkMetrics {
  totalTickets : Z;
  avgResolutionTime : Q;
  highPriorityCount : Z;
  mostCommonType : jsstring;
  trend : jsstring;
  trendValue : Q;
  weeklyAverage : Q;
  noteForAverage : jsstring
}.

(** [x || 0] on a number. *)
Definition orZero (x : Z) : Z := if (x =? 0)%Z then 0%Z else x.

(** [o[k]]: the own property, if any. *)
Fixpoint getProp (o : Distribution) (k : jsstring) : option Z :=
  match o with
  | [] => None
  | (k', v) :: o' => if streq k k' then Some v else getProp o' k
  end.

(** [o[k] || 0]. *)
Definition countOf (o : Distribution) (k : jsstring) : Z :=
  match getProp o k with
  | Some v => orZero v
  | None => 0%Z
  end.

(** [arr.slice(-n)]. *)
Definition sliceLast (A : Type) (n : nat) (arr : list A) : list A :=
  skipn (List.length arr - n) arr.

(** [arr.reduce((sum, w) => sum + (w.count || 0), 0)]. *)
Definition sumCounts (arr : list WeeklyBucket) : Z :=
  fold_left (fun sum w => (sum + orZero (count w))%Z) arr 0%Z.

(** [sum / Math.max(arr.length, 1)]. *)
Definition average (arr : list WeeklyBucket) : Q :=
  inject_Z (sumCounts arr)
  / inject_Z (Z.max (Z.of_nat (List.length arr)) 1).

Definition Qgtb (x y : Q) : bool := negb (Qle_bool x y).

(** The [trend] and [trendValue] variables at the end of the [if] block. *)
Definition computeTrend (weeklyData : list WeeklyBucket) : jsstring * Q :=
  let recentWeeks := sliceLast 4 weeklyData in
  if (2 <=? List.length recentWeeks)%nat then
    let half := (List.length recentWeeks / 2)%nat in
    let firstHalf := firstn half recentWeeks in
    let secondHalf := skipn half recentWeeks in
    let firstAvg := average firstHalf in
    let secondAvg := average secondHalf in
    if Qgtb firstAvg 0 then
      let trendValue := (secondAvg - firstAvg) / firstAvg * 100 in
      (if Qgtb trendValue 10 then js "up"
       else if Qgtb (-10) trendValue then js "down"
       else js "stable",
       trendValue)
    else (js "stable", 0)
  else (js "stable", 0).

(** The [reduce] over [Object.keys(typeData)]. *)
Definition pickMostCommon (typeData : Distribution) : jsstring :=
  let keys := map fst typeData in
  fold_left
    (fun a b => if (countOf typeData a >? countOf typeData b)%Z then a else b)
    keys
    (orElse (hd [] keys) (js "N/A")).

Definition calculateMetrics (analytics : Analytics) : Metrics :=
  let weeklyData := tickets_per_week analytics in
  let totalTickets :=
    if (total_tickets analytics =? 0)%Z then sumCounts weeklyData
    else total_tickets analytics in
  let priorityData := priority_distribution analytics in
  let typeData := type_distribution analytics in
  let weeklyAverage :=
    if Qeq_bool (weekly_average analytics) 0
    then (if (totalTickets >? 0)%Z
          then inject_Z totalTickets
               / inject_Z (Z.max (Z.of_nat (List.length weeklyData)) 1)
          else 0)
    else weekly_average analytics in
  let (trend, trendValue) := computeTrend weeklyData in
  let highPriorityCount :=
    (countOf priorityData (js "High") + countOf priorityData (js "Highest")
     + countOf priorityData (js "Critical"))%Z in
  let mostCommonType := pickMostCommon typeData in
  let avgResolutionTime := avg_resolution_time analytics in
  let noteForAverage :=
    if Qeq_bool avgResolutionTime 0
    then js " (No resolved tickets in period)" else [] in
  mkMetrics totalTickets avgResolutionTime highPriorityCount mostCommonType
    trend (Qabs trendValue) weeklyAverage noteForAverage.

End AnalyticsDashboard.

(* ================================================================== *)
(** * Host functions instantiated, and the specification's own words *)
(* ================================================================== *)

Module Host.
Import Js.
Local Open Scope N_scope.

(** [toLowerCase] on the code units of Basic Latin and the Latin-1
    Supplement (the Unicode simple lower-case mapping there); other code
    units are left as they are. *)
Definition lowerUnit (c : N) : N :=
  if (65 <=? c) && (c <=? 90) then c + 32
  else if (192 <=? c) && (c <=? 222) && negb (c =? 215) then c + 32
  else c.

Definition toLowerCase (s : jsstring) : jsstring := map lowerUnit s.

(** [toUpperCase] on the code units of Basic Latin and the Latin-1
    Supplement: the Unicode upper-case mapping there, with its three
    special cases (the sharp s becomes ["SS"], U+00FF and the micro sign
    leave Latin-1); other code units are left as they are. *)
Definition upperUnit (c : N) : jsstring :=
  if (97 <=? c) && (c <=? 122) then [c - 32]
  else if c =? 223 then [83; 83]
  else if c =? 255 then [376]
  else if c =? 181 then [924]
  else if (224 <=? c) && (c <=? 254) && negb (c =? 247) then [c - 32]
  else [c].

Definition toUpperCase (s : jsstring) : jsstring := flat_map upperUnit s.

(** Collation weights of the root locale on ASCII letters: the primary
    weight of a letter ignores its case, the tertiary weight puts the
    lower-case letter first. *)
Definition primaryWeight (c : N) : N :=
  (if (65 <=? c) && (c <=? 90) then c + 32 else c) + 1.

Definition tertiaryWeight (c : N) : N :=
  if (65 <=? c) && (c <=? 90) then 2 else 1.

(** A sort key: primary weights, a separator, tertiary weights. *)
Definition sortKey (s : jsstring) : list N :=
  map primaryWeight s ++ [0] ++ map tertiaryWeight s.

Definition compareByKey (key : jsstring -> list N) (a b : jsstring) : Z :=
  match codeUnitCompare (key a) (key b) with
  | Lt => (-1)%Z
  | Eq => 0%Z
  | Gt => 1%Z
  end.

(** [localeCompare] by sort keys.  On strings of ASCII letters this is the
    order of the root collation, which the locales with the usual Latin
    alphabet share; on other strings it is only some consistent
    comparator. *)
Definition localeCompare : jsstring -> jsstring -> Z := compareByKey sortKey.

End Host.

(** The definitions of [Spec] follow the words of the specification, not
    the code: they are what the code is compared with. *)
Module Spec.
Import Js.
Local Open Scope Q_scope.

(** ** The ticket encoding *)

(** The remainder ["S [G1] [G2] ..."] of an encoding: the summary, then
    each group in brackets after a space. *)
Definition remainder (S : jsstring) (groups : list jsstring) : jsstring :=
  S ++ flat_map (fun g => js " [" ++ g ++ js "]") groups.

(** The encoding ["K: S [G1] [G2] ..."]. *)
Definition encode (K S : jsstring) (groups : list jsstring) : jsstring :=
  K ++ js ": " ++ remainder S groups.

(** The text after the first occurrence of [sep] in [s], if there is
    one. *)
Fixpoint afterFirst (sep s : jsstring) : option jsstring :=
  if startsWith sep s then Some (skipn (List.length sep) s)
  else
    match s with
    | [] => None
    | _ :: s' => afterFirst sep s'
    end.

Definition notOpening (c : N) : bool := negb (c =? 91)%N.

(** A key: no separator inside, no white space at its ends. *)
Definition validKey (K : jsstring) : bool :=
  negb (includes (js ": ") K) && streq (trim K) K.

(** A summary: one line without an opening bracket, no white space at
    its ends; it may be empty. *)
Definition validSummary (S : jsstring) : bool :=
  forallb notOpening S
  && forallb (fun c => negb (isLineTerminator c)) S
  && streq (trim S) S.

(** A bracketed group: not empty, without a closing bracket. *)
Definition validGroup (g : jsstring) : bool :=
  Js.truthy g && forallb Parser.notClosing g.

(** An encoding whose only separator [": "] is the one after the key. *)
Definition wellFormed (K S : jsstring) (groups : list jsstring) : bool :=
  validKey K && validSummary S && forallb validGroup groups
  && negb (includes (js ": ") (remainder S groups)).

(** The rank of a status label in the rank table; an unrecognized label
    has rank 999. *)
Definition statusRank (a : jsstring) : Z :=
  match JiraManagerPro.ownProperty a JiraManagerPro.statusOrder with
  | Some n => n
  | None => 999%Z
  end.

(** [a] is placed no later than [b]: by rank, equal ranks by the host's
    [localeCompare]. *)
Definition rankThenLocale (localeCompare : jsstring -> jsstring -> Z)
  (a b : jsstring) : Prop :=
  (statusRank a < statusRank b)%Z
  \/ (statusRank a = statusRank b /\ (localeCompare a b <= 0)%Z).

(** Ordering by rank, equal ranks by the code-unit order of the labels. *)
Definition compareByRankThenCodeUnits (a b : jsstring) : Z :=
  if (statusRank a =? statusRank b)%Z
  then Host.compareByKey (fun s => s) a b
  else (statusRank a - statusRank b)%Z.

Definition orderedStatuses (labels : list jsstring) : list jsstring :=
  sortWith compareByRankThenCodeUnits labels.

(** The last four entries, or all of them when there are fewer. *)
Definition lastFour (A : Type) (l : list A) : list A :=
  rev (firstn 4 (rev l)).

(** The mean of a list of counts; the mean of no entries is [0]. *)
Definition mean (counts : list Z) : Q :=
  match counts with
  | [] => 0
  | _ => inject_Z (fold_right Z.add 0%Z counts)
         / inject_Z (Z.of_nat (List.length counts))
  end.

(** Trend classification and magnitude of a sequence of weekly counts. *)
Definition trendOf (counts : list Z) : jsstring * Q :=
  let recent := lastFour counts in
  let n := List.length recent in
  let firstMean := mean (firstn (n / 2) recent) in
  let secondMean := mean (skipn (n / 2) recent) in
  if Qeq_bool firstMean 0 then (js "stable", 0)
  else
    let trendPercent := (secondMean - firstMean) / firstMean * 100 in
    (match trendPercent ?= 10 with
     | Gt => js "up"
     | _ => match trendPercent ?= -10 with
            | Lt => js "down"
            | _ => js "stable"
            end
     end,
     Qabs trendPercent).

(** The first key, in iteration order, whose count is the maximum. *)
Fixpoint firstMaximal (d : list (jsstring * Z)) : option (jsstring * Z) :=
  match d with
  | [] => None
  | (k, v) :: d' =>
    match firstMaximal d' with
    | Some (k', v') => if (v <? v')%Z then Some (k', v') else Some (k, v)
    | None => Some (k, v)
    end
  end.

Definition mostCommonType (d : list (jsstring * Z)) : jsstring :=
  match firstMaximal d with
  | Some (k, _) => k
  | None => js "N/A"
  end.

End Spec.

(** Sample data used in the examples below. *)
Module Samples.
Import Js.

Definition risingWeeks : AnalyticsDashboard.Analytics :=
  AnalyticsDashboard.mkAnalytics
    [AnalyticsDashboard.mkWeek (js "2025-W01") 5;
     AnalyticsDashboard.mkWeek (js "2025-W02") 5;
     AnalyticsDashboard.mkWeek (js "2025-W03") 12;
     AnalyticsDashboard.mkWeek (js "2025-W04") 13]
    [] [] [] 0 0 0 0.

Definition tiedTypes : AnalyticsDashboard.Analytics :=
  AnalyticsDashboard.mkAnalytics [] []
    [(js "Bug", 3%Z); (js "Task", 3%Z)] [] 0 0 0 0.

Definition mixedTypes : AnalyticsDashboard.Analytics :=
  AnalyticsDashboard.mkAnalytics [] []
    [(js "Bug", 3%Z); (js "Story", 1%Z); (js "Task", 3%Z); (js "Epic", 2%Z)]
    [] 0 0 0 0.

Definition loadedBoard : JiraManagerPro.BoardState :=
  JiraManagerPro.mkBoardState
    [(js "Done", [js "PROJ-1: Fix crash [Alice] [Bug] [High]"])] false [].

Definition mixedBoard : JiraManagerPro.Board :=
  [ (js "À faire",
     [js "PROJ-1: Fix crash [Alice] [Bug] [Urgent]";
      js "PROJ-2: Write docs [Unassigned] [Task]";
      js "not a ticket"]);
    (js "Done", [js "PROJ-3: Ship [Non assigné] [Story] [Low]"]) ].

Definition mixedLabels : list jsstring :=
  [js "Zeta"; js "Done"; js "alpha"; js "Closed"; js "Open"].

End Samples.

(* ================================================================== *)
(** * project.jsx: the remaining components *)
(* ================================================================== *)

(** ** TicketCard: the degraded card *)

Module TicketCard.
Import Js Parser.
Local Open Scope N_scope.

(** [rest.replace(/^:\s*/, '')]. *)
Definition stripLeadingColon (s : jsstring) : jsstring :=
  match s with
  | [] => []
  | c :: s' => if c =? 58 then dropWhile isWhiteSpace s' else s
  end.

(** The lazy group [(.*?)] of [/\[(.*?)\]/] followed by the closing
    bracket: the code units up to the first closing bracket, none of which
    may be a line terminator. *)
Fixpoint lazyUntilClose (taken s : jsstring) : option jsstring :=
  match s with
  | [] => None
  | c :: s' =>
    if c =? 93 then Some (rev taken)
    else if isLineTerminator c then None
    else lazyUntilClose (c :: taken) s'
  end.

(** [rest.match(/\[(.*?)\]/)?.[1]]: the leftmost match. *)
Fixpoint firstBracketGroup (s : jsstring) : option jsstring :=
  match s with
  | [] => None
  | c :: s' =>
    if c =? 91 then
      match lazyUntilClose [] s' with
      | Some g => Some g
      | None => firstBracketGroup s'
      end
    else firstBracketGroup s'
  end.

(** A code unit the lazy group may hold. *)
Definition plainUnit (c : N) : bool :=
  notClosing c && negb (isLineTerminator c).

Record Fallback := mkFallback {
  cardKey : jsstring;
  cardSummary : jsstring;
  cardAssignee : jsstring
}.

(** The fallback branch of [TicketCard]. *)
Definition fallbackCard (ticket : jsstring) : Fallback :=
  let key := trim (hd [] (split (js ":") ticket)) in
  let rest := stripLeadingColon (skipn (List.length key + 1) ticket) in
  let summary := hd [] (split (js " [") rest) in
  let assignee :=
    orElse (match firstBracketGroup rest with Some g => g | None => [] end)
      (js "Unassigned") in
  mkFallback key summary assignee.

(** What a card shows. *)
Inductive Card :=
| FullCard (ticketInfo : TicketInfo)
| DegradedCard (fallback : Fallback).

Definition ticketCard (ticket : jsstring) : Card :=
  match parseTicketInfo ticket with
  | Some ticketInfo => FullCard ticketInfo
  | None => DegradedCard (fallbackCard ticket)
  end.

(** The key the action buttons of a card pass on, as the board computes
    it: [ticketInfo ? ticketInfo.key : ticket.split(':')[0].trim()]. *)
Definition ticketKeyOf (ticket : jsstring) : jsstring :=
  match parseTicketInfo ticket with
  | Some ticketInfo => key ticketInfo
  | None => trim (hd [] (split (js ":") ticket))
  end.

End TicketCard.

(** ** StatusBadge *)

Module StatusBadge.
Import Js.
Local Open Scope N_scope.

Inductive Icon := Clock | RefreshCw | CheckCircle | Tag.

Definition isUpperLetter (c : N) : bool := (65 <=? c) && (c <=? 90).

Section Host.
(** [String.prototype.toUpperCase], provided by the host. *)
Variable toUpperCase : jsstring -> jsstring.

(** [status.toUpperCase().replace(/[^A-Z]/g, '')]. *)
Definition normalizedStatus (status : jsstring) : jsstring :=
  filter isUpperLetter (toUpperCase status).

Definition getStatusClass (status : jsstring) : jsstring :=
  let n := normalizedStatus status in
  if streq n (js "TODO") || streq n (js "AFAIRE") || streq n (js "OPEN")
  then js "jira-status-todo"
  else if streq n (js "INPROGRESS") || streq n (js "ENCOURS")
          || streq n (js "PROGRESS")
  then js "jira-status-progress"
  else if streq n (js "DONE") || streq n (js "TERMINE")
          || streq n (js "TERMINEES") || streq n (js "CLOSED")
          || streq n (js "RESOLVED")
  then js "jira-status-done"
  else js "jira-status-other".

Definition getStatusIcon (status : jsstring) : Icon :=
  let n := normalizedStatus status in
  if streq n (js "TODO") || streq n (js "AFAIRE") || streq n (js "OPEN")
  then Clock
  else if streq n (js "INPROGRESS") || streq n (js "ENCOURS")
          || streq n (js "PROGRESS")
  then RefreshCw
  else if streq n (js "DONE") || streq n (js "TERMINE")
          || streq n (js "TERMINEES") || streq n (js "CLOSED")
          || streq n (js "RESOLVED")
  then CheckCircle
  else Tag.
End Host.

(** The stage a class stands for, as a rank of [statusOrder]. *)
Definition classRank (class : jsstring) : Z :=
  if streq class (js "jira-status-todo") then 1%Z
  else if streq class (js "jira-status-progress") then 2%Z
  else if streq class (js "jira-status-done") then 3%Z
  else 999%Z.

(** The icon that goes with a class. *)
Definition classIcon (class : jsstring) : Icon :=
  if streq class (js "jira-status-todo") then Clock
  else if streq class (js "jira-status-progress") then RefreshCw
  else if streq class (js "jira-status-done") then CheckCircle
  else Tag.

Definition ascii (c : N) : bool := c <? 128.

(** Lower-case ASCII letters of a string, the rest dropped. *)
Definition asciiLetters (s : jsstring) : jsstring :=
  flat_map (fun c => if (65 <=? c) && (c <=? 90) then [c + 32]
                     else if (97 <=? c) && (c <=? 122) then [c]
                     else []) s.

End StatusBadge.

(** ** apiService: getTickets, createTicket, updateTicket *)

Module TicketQuery.
Import Js.
Local Open Scope N_scope.

(** The [filters] object; an absent field is the empty string. *)
Record Filters := mkFilters {
  search : jsstring;
  assignee : jsstring;
  type : jsstring;
  status : jsstring;
  priority : jsstring
}.

(** The entries appended to [params], in order. *)
Definition getTicketsParams (filters : Filters)
  : list (jsstring * jsstring) :=
  (if truthy (search filters) then [(js "search", search filters)] else [])
  ++ (if truthy (assignee filters)
         && negb (streq (assignee filters) (js "all"))
      then [(js "assignee", assignee filters)] else [])
  ++ (if truthy (type filters) && negb (streq (type filters) (js "all"))
      then [(js "type", type filters)] else [])
  ++ (if truthy (status filters) && negb (streq (status filters) (js "all"))
      then [(js "status", status filters)] else []).

(** Conversion to scalar values, as for every string handed to
    [URLSearchParams]: a surrogate pair is one code point, a lone
    surrogate becomes U+FFFD. *)
Fixpoint codePoints (s : jsstring) : list N :=
  match s with
  | [] => []
  | c :: s' =>
    if (55296 <=? c) && (c <=? 56319) then
      match s' with
      | d :: s'' =>
        if (56320 <=? d) && (d <=? 57343)
        then (65536 + (c - 55296) * 1024 + (d - 56320)) :: codePoints s''
        else 65533 :: codePoints s'
      | [] => [65533]
      end
    else if (56320 <=? c) && (c <=? 57343) then 65533 :: codePoints s'
    else c :: codePoints s'
  end.

(** UTF-8 bytes of a code point. *)
Definition utf8 (cp : N) : list N :=
  if cp <? 128 then [cp]
  else if cp <? 2048 then [192 + cp / 64; 128 + cp mod 64]
  else if cp <? 65536
  then [224 + cp / 4096; 128 + (cp / 64) mod 64; 128 + cp mod 64]
  else [240 + cp / 262144; 128 + (cp / 4096) mod 64;
        128 + (cp / 64) mod 64; 128 + cp mod 64].

Definition hexDigit (n : N) : N := if n <? 10 then 48 + n else 55 + n.

(** The bytes the [application/x-www-form-urlencoded] serializer leaves as
    they are: ASCII letters and digits and [* - . _]. *)
Definition unreserved (b : N) : bool :=
  ((48 <=? b) && (b <=? 57)) || ((65 <=? b) && (b <=? 90))
  || ((97 <=? b) && (b <=? 122))
  || (b =? 42) || (b =? 45) || (b =? 46) || (b =? 95).

Definition encodeByte (b : N) : jsstring :=
  if unreserved b then [b]
  else if b =? 32 then [43]
  else [37; hexDigit (b / 16); hexDigit (b mod 16)].

Definition urlencode (s : jsstring) : jsstring :=
  flat_map encodeByte (flat_map utf8 (codePoints s)).

Fixpoint join (sep : jsstring) (pieces : list jsstring) : jsstring :=
  match pieces with
  | [] => []
  | [p] => p
  | p :: ps => p ++ sep ++ join sep ps
  end.

Definition encodePair (p : jsstring * jsstring) : jsstring :=
  urlencode (fst p) ++ js "=" ++ urlencode (snd p).

(** [params.toString()]. *)
Definition queryString (params : list (jsstring * jsstring)) : jsstring :=
  join (js "&") (map encodePair params).


(** A code unit the serializer may write: an unreserved byte, [+] or
    [%]. *)
Definition safeUnit (c : N) : bool := unreserved c || (c =? 43) || (c =? 37).

(** A string of code units proper (below 65536). *)
Definition codeUnits (s : jsstring) : bool := forallb (fun c => c <? 65536) s.



End TicketQuery.

(** ** CreateTicketModal and EditTicketModal *)

Module TicketForms.
Import Js ApiService.

(** The [formData] of the edit modal; the create modal uses its first five
    fields. *)
Record FormData := mkForm {
  summary : jsstring;
  description : jsstring;
  priority : jsstring;
  issueType : jsstring;
  assignee : jsstring;
  status : jsstring;
  created : jsstring;
  updated : jsstring
}.

(** [apiService.createTicket(data)]. *)
Definition createTicket (data : FormData) : Request :=
  mkRequest (js "/tickets") (js "POST")
    [ (js "summary", summary data);
      (js "description", description data);
      (js "issueType", issueType data);
      (js "priority", priority data);
      (js "assignee", assignee data) ].

(** [apiService.updateTicket(key, data)]. *)
Definition updateTicket (key : jsstring) (data : FormData) : Request :=
  let payload :=
    (if truthy (summary data) && truthy (trim (summary data))
     then [(js "summary", trim (summary data))] else [])
    ++ (if truthy (description data) && truthy (trim (description data))
        then [(js "description", trim (description data))] else [])
    ++ (if truthy (priority data)
        then [(js "priority", priority data)] else [])
    ++ (if truthy (issueType data)
        then [(js "issueType", issueType data)] else [])
    ++ (if truthy (assignee data)
        then [(js "assignee", assignee data)] else []) in
  mkRequest (js "/tickets/" ++ key) (js "PUT") payload.

(** The keys of [formData], in [Object.keys] order. *)
Inductive FormKey :=
| KSummary | KDescription | KPriority | KIssueType | KAssignee
| KStatus | KCreated | KUpdated.

Definition formKeys : list FormKey :=
  [KSummary; KDescription; KPriority; KIssueType; KAssignee;
   KStatus; KCreated; KUpdated].

Definition keyName (k : FormKey) : jsstring :=
  match k with
  | KSummary => js "summary"
  | KDescription => js "description"
  | KPriority => js "priority"
  | KIssueType => js "issueType"
  | KAssignee => js "assignee"
  | KStatus => js "status"
  | KCreated => js "created"
  | KUpdated => js "updated"
  end.

(** [formData[key]]. *)
Definition getKey (k : FormKey) (d : FormData) : jsstring :=
  match k with
  | KSummary => summary d
  | KDescription => description d
  | KPriority => priority d
  | KIssueType => issueType d
  | KAssignee => assignee d
  | KStatus => status d
  | KCreated => created d
  | KUpdated => updated d
  end.

(** [{ ...prev, [key]: value }]. *)
Definition setKey (k : FormKey) (v : jsstring) (d : FormData) : FormData :=
  match k with
  | KSummary =>
    mkForm v (description d) (priority d) (issueType d) (assignee d)
      (status d) (created d) (updated d)
  | KDescription =>
    mkForm (summary d) v (priority d) (issueType d) (assignee d)
      (status d) (created d) (updated d)
  | KPriority =>
    mkForm (summary d) (description d) v (issueType d) (assignee d)
      (status d) (created d) (updated d)
  | KIssueType =>
    mkForm (summary d) (description d) (priority d) v (assignee d)
      (status d) (created d) (updated d)
  | KAssignee =>
    mkForm (summary d) (description d) (priority d) (issueType d) v
      (status d) (created d) (updated d)
  | KStatus =>
    mkForm (summary d) (description d) (priority d) (issueType d)
      (assignee d) v (created d) (updated d)
  | KCreated =>
    mkForm (summary d) (description d) (priority d) (issueType d)
      (assignee d) (status d) v (updated d)
  | KUpdated =>
    mkForm (summary d) (description d) (priority d) (issueType d)
      (assignee d) (status d) (created d) v
  end.

Definition readOnlyKey (k : FormKey) : bool :=
  match k with
  | KCreated | KUpdated | KStatus => true
  | _ => false
  end.

(** [hasChanges] of the edit modal.  [originalData] is [None] while it is
    still the empty object it starts as: each of its fields is then
    [undefined], which differs from every string. *)
Definition hasChanges (formData : FormData) (originalData : option FormData)
  : bool :=
  existsb
    (fun key =>
       if readOnlyKey key then false
       else match originalData with
            | Some original =>
              negb (streq (getKey key formData) (getKey key original))
            | None => true
            end)
    formKeys.

(** [handleSubmit] of the edit modal: the new [errors.general], if it is
    set, and the request [onSubmit] issues through [handleEditTicket]. *)
Definition editSubmit (ticketKey : jsstring) (formData : FormData)
  (originalData : option FormData) : option jsstring * option Request :=
  if hasChanges formData originalData
  then (None, Some (updateTicket ticketKey formData))
  else (Some (js "Aucune modification détectée"), None).

(** The [errors] object of the create modal; an absent message is the
    empty string. *)
Record CreateErrors := mkErrors {
  summaryError : jsstring;
  issueTypeError : jsstring
}.

(** [handleSubmit] of the create modal: the errors it sets, if any, and
    the request [onSubmit] issues through [handleCreateTicket]. *)
Definition createSubmit (formData : FormData)
  : option CreateErrors * option Request :=
  let newErrors := mkErrors [] [] in
  let newErrors :=
    if negb (truthy (trim (summary formData)))
    then mkErrors (js "Le résumé est requis") (issueTypeError newErrors)
    else newErrors in
  let newErrors :=
    if negb (truthy (trim (issueType formData)))
    then mkErrors (summaryError newErrors)
           (js "Le type de ticket est requis")
    else newErrors in
  if truthy (summaryError newErrors) || truthy (issueTypeError newErrors)
  then (Some newErrors, None)
  else (None, Some (createTicket formData)).

(** The keys [hasChanges] compares. *)
Definition editableKeys : list FormKey :=
  [KSummary; KDescription; KPriority; KIssueType; KAssignee].

(** A string that is empty or all white space. *)
Definition blank (s : jsstring) : bool := forallb isWhiteSpace s.

(** The form the edit modal shows before anything is loaded. *)
Definition emptyForm : FormData := mkForm [] [] [] [] [] [] [] [].

(** What the details endpoint may send as [assignee]. *)
Inductive AssigneeData :=
| AssigneeAbsent                       (* null, undefined *)
| AssigneeString (name : jsstring)
| AssigneeObject (displayName name key accountId emailAddress : jsstring)
| AssigneeOther.                       (* a truthy number or boolean *)

(** [getAssigneeName]; an absent field of the object is the empty
    string. *)
Definition getAssigneeName (assigneeData : AssigneeData) : jsstring :=
  match assigneeData with
  | AssigneeAbsent => []
  | AssigneeString s =>
    if truthy s then (if streq s (js "Unassigned") then [] else s) else []
  | AssigneeObject displayName name key accountId emailAddress =>
    orElse displayName
      (orElse name (orElse key (orElse accountId (orElse emailAddress []))))
  | AssigneeOther => []
  end.

End TicketForms.

(** ** JiraManagerPro: ticket lookup and the action handlers *)

Module BoardActions.
Import Js JiraManagerPro.

(** [findTicketStatus(ticketKey)]. *)
Fixpoint findTicketStatus (tickets : Board) (ticketKey : jsstring)
  : option jsstring :=
  match tickets with
  | [] => None
  | (status, ticketList) :: entries =>
    if existsb (startsWith ticketKey) ticketList then Some status
    else findTicketStatus entries ticketKey
  end.

(** Some ticket string of the column starts with the key. *)
Definition holds (ticketKey : jsstring) (entry : jsstring * list jsstring)
  : bool :=
  existsb (startsWith ticketKey) (snd entry).

(** [Object.values(tickets).flat().length]. *)
Definition totalTickets (tickets : Board) : nat :=
  List.length (allTickets tickets).

Record AppState := mkApp {
  board : BoardState;
  actionLoading : bool
}.

(** How a mutation call settles: with a reply whose [success] field is
    given, or by throwing an error with the given [message]. *)
Inductive Reply :=
| Replied (success : bool)
| Failed (message : jsstring).

(** The common body of [handleCreateTicket], [handleEditTicket] and
    [handleTransitionTicket], from the call to the end of [finally]:
    [fallback] is the handler's own error text, [reload] is how the
    [loadTickets] it awaits settles.  The boolean is the value returned. *)
Definition handleMutation (fallback : jsstring) (st : AppState)
  (reply : Reply) (reload : Settled) : AppState * bool :=
  match reply with
  | Replied true => (mkApp (loadTickets (board st) reload) false, true)
  | Replied false => (mkApp (board st) false, false)
  | Failed message =>
    (mkApp (mkBoardState (tickets (board st)) (loading (board st))
              (orElse message fallback)) false, false)
  end.

Definition handleCreateTicket :=
  handleMutation (js "Erreur lors de la création du ticket").
Definition handleEditTicket :=
  handleMutation (js "Erreur lors de la modification du ticket").
Definition handleTransitionTicket :=
  handleMutation (js "Erreur lors du changement de statut").

(** The step of the reduction that collects the assignees, and the
    comparison [Array.prototype.sort] uses without a comparator. *)
Definition assigneeStep (assignees : list jsstring) (ticket : jsstring)
  : list jsstring :=
  match Parser.parseTicketInfo ticket with
  | Some ticketInfo =>
    if truthy (Parser.assignee ticketInfo)
       && negb (streq (Parser.assignee ticketInfo) (js "Non assigné"))
    then setAdd (Parser.assignee ticketInfo) assignees
    else assignees
  | None => assignees
  end.


End BoardActions.

(* ================================================================== *)
(** * The analytics dashboard: charts and insights *)
(* ================================================================== *)

Module Charts.
Import Js AnalyticsDashboard.
Local Open Scope Q_scope.

(** ** KPICard *)

(** [trend && trendValue > 0]: whether the trend badge is drawn. *)
Definition showsTrendBadge (trend : jsstring) (trendValue : Q) : bool :=
  truthy trend && Qgtb trendValue 0.

(** ** InsightsPanel: the [status] of three insights *)

Definition workloadStatus (metrics : Metrics) : jsstring :=
  if streq (trend metrics) (js "up") then js "warning"
  else if streq (trend metrics) (js "down") then js "success"
  else js "neutral".

Definition priorityStatus (metrics : Metrics) : jsstring :=
  if (highPriorityCount metrics >? 0)%Z then js "critical" else js "success".

Definition resolutionStatus (metrics : Metrics) : jsstring :=
  if Qle_bool (avgResolutionTime metrics) 3 then js "excellent"
  else if Qle_bool (avgResolutionTime metrics) 7 then js "bon"
  else js "à améliorer".

(** The sum of the counts of a distribution. *)
Definition totalOf (d : Distribution) : Z :=
  fold_right (fun entry acc => (snd entry + acc)%Z) 0%Z d.

(** ** DonutChart *)








(** ** WeeklyTrendChart *)




End Charts.

(* ================================================================== *)
(** * Facts about the runtime functions *)
(* ================================================================== *)

Module JsFacts.
Import Js.
Local Open Scope N_scope.

Lemma streq_true (a b : jsstring) : streq a b = true <-> a = b.
Proof.
  unfold streq; destruct (list_eq_dec N.eq_dec a b); split; congruence.
Qed.

Lemma streq_false (a b : jsstring) : streq a b = false <-> a <> b.
Proof.
  unfold streq; destruct (list_eq_dec N.eq_dec a b); split; congruence.
Qed.

Lemma streq_refl (a : jsstring) : streq a a = true.
Proof. now apply streq_true. Qed.

Lemma truthy_false (s : jsstring) : truthy s = false <-> s = [].
Proof. destruct s; simpl; split; congruence. Qed.

Lemma truthy_true (s : jsstring) : truthy s = true <-> s <> [].
Proof. destruct s; simpl; split; congruence. Qed.

(** ** takeWhile and dropWhile *)

Lemma take_drop (p : N -> bool) (s : jsstring) :
  takeWhile p s ++ dropWhile p s = s.
Proof.
  induction s as [|c s IH]; simpl; [reflexivity|].
  destruct (p c); simpl; [now rewrite IH | reflexivity].
Qed.

Lemma takeWhile_all (p : N -> bool) (s : jsstring) :
  forallb p (takeWhile p s) = true.
Proof.
  induction s as [|c s IH]; simpl; [reflexivity|].
  destruct (p c) eqn:E; simpl; [now rewrite E | reflexivity].
Qed.

Lemma dropWhile_head (p : N -> bool) (s : jsstring) :
  match dropWhile p s with
  | [] => True
  | c :: _ => p c = false
  end.
Proof.
  induction s as [|c s IH]; simpl; [exact I|].
  destruct (p c) eqn:E; [exact IH | exact E].
Qed.

Lemma dropWhile_nil (p : N -> bool) (s : jsstring) :
  dropWhile p s = [] <-> forallb p s = true.
Proof.
  induction s as [|c s IH]; simpl; [tauto|].
  destruct (p c); simpl; [exact IH | split; discriminate].
Qed.

Lemma dropWhile_all (p : N -> bool) (l s : jsstring) :
  forallb p l = true -> dropWhile p (l ++ s) = dropWhile p s.
Proof.
  induction l as [|c l IH]; simpl; [reflexivity|].
  intros H; apply andb_true_iff in H as [Hc Hl]; rewrite Hc; auto.
Qed.

Lemma dropWhile_stop (p : N -> bool) (c : N) (s : jsstring) :
  p c = false -> dropWhile p (c :: s) = c :: s.
Proof. intros H; simpl; now rewrite H. Qed.

Lemma dropWhile_snoc (p : N -> bool) (l : jsstring) (c : N) :
  p c = false -> dropWhile p (l ++ [c]) = dropWhile p l ++ [c].
Proof.
  intros Hc; induction l as [|x l IH]; simpl; [now rewrite Hc|].
  destruct (p x); [exact IH | reflexivity].
Qed.

Lemma takeWhile_stop (p : N -> bool) (l : jsstring) (c : N) (s : jsstring) :
  forallb p l = true -> p c = false -> takeWhile p (l ++ c :: s) = l.
Proof.
  intros Hl Hc; induction l as [|x l IH]; simpl in *; [now rewrite Hc|].
  apply andb_true_iff in Hl as [Hx Hl]; rewrite Hx; f_equal; auto.
Qed.

Lemma forallb_rev (p : N -> bool) (s : jsstring) :
  forallb p (rev s) = forallb p s.
Proof.
  induction s as [|c s IH]; simpl; [reflexivity|].
  rewrite forallb_app, IH; simpl; rewrite andb_true_r; apply andb_comm.
Qed.

(** ** trim *)

(** [trim] removes a run of white space at each end and nothing else; what
    is left neither starts nor ends with white space. *)
Lemma trim_spec (s : jsstring) :
  exists l r,
    s = l ++ trim s ++ r
    /\ forallb isWhiteSpace l = true
    /\ forallb isWhiteSpace r = true
    /\ match trim s with [] => True | c :: _ => isWhiteSpace c = false end
    /\ match rev (trim s) with
       | [] => True
       | c :: _ => isWhiteSpace c = false
       end.
Proof.
  unfold trim, trimEnd, trimStart.
  set (m := dropWhile isWhiteSpace s).
  exists (takeWhile isWhiteSpace s), (rev (takeWhile isWhiteSpace (rev m))).
  assert (Hm : m = rev (dropWhile isWhiteSpace (rev m))
                   ++ rev (takeWhile isWhiteSpace (rev m))).
  { rewrite <- rev_app_distr, take_drop; symmetry; apply rev_involutive. }
  repeat split.
  - rewrite <- Hm; symmetry; apply take_drop.
  - apply takeWhile_all.
  - rewrite forallb_rev; apply takeWhile_all.
  - pose proof (dropWhile_head isWhiteSpace s) as Hh; fold m in Hh.
    destruct m as [|c m']; simpl; [exact I|].
    rewrite dropWhile_snoc by exact Hh.
    rewrite rev_app_distr; simpl; exact Hh.
  - rewrite rev_involutive; apply dropWhile_head.
Qed.

Lemma trim_nil_iff (s : jsstring) :
  trim s = [] <-> forallb isWhiteSpace s = true.
Proof.
  unfold trim, trimEnd, trimStart; split.
  - intros H.
    assert (H1 : dropWhile isWhiteSpace (rev (dropWhile isWhiteSpace s)) = []).
    { rewrite <- (rev_involutive (dropWhile _ (rev _))), H; reflexivity. }
    apply dropWhile_nil in H1; rewrite forallb_rev in H1.
    pose proof (dropWhile_head isWhiteSpace s) as Hh.
    destruct (dropWhile isWhiteSpace s) as [|c m] eqn:E.
    + now apply dropWhile_nil.
    + simpl in H1; rewrite Hh in H1; discriminate.
  - intros H; apply dropWhile_nil in H; rewrite H; reflexivity.
Qed.

Lemma truthy_trim (s : jsstring) :
  truthy (trim s) = negb (forallb isWhiteSpace s).
Proof.
  destruct (forallb isWhiteSpace s) eqn:E; simpl.
  - apply trim_nil_iff in E; now rewrite E.
  - apply truthy_true; intros H; apply trim_nil_iff in H; congruence.
Qed.

(** A string that neither starts nor ends with white space is its own
    trim. *)
Lemma trim_clean (s : jsstring) :
  match s with [] => True | c :: _ => isWhiteSpace c = false end ->
  match rev s with [] => True | c :: _ => isWhiteSpace c = false end ->
  trim s = s.
Proof.
  intros H1 H2; unfold trim, trimEnd, trimStart.
  assert (E1 : dropWhile isWhiteSpace s = s).
  { destruct s; [reflexivity | now apply dropWhile_stop]. }
  rewrite E1.
  assert (E2 : dropWhile isWhiteSpace (rev s) = rev s).
  { destruct (rev s); [reflexivity | now apply dropWhile_stop]. }
  rewrite E2; apply rev_involutive.
Qed.

(** Surrounding white space does not change the trim. *)
Lemma trim_pad (l s r : jsstring) :
  forallb isWhiteSpace l = true -> forallb isWhiteSpace r = true ->
  trim (l ++ s ++ r) = trim s.
Proof.
  intros Hl Hr; unfold trim, trimEnd, trimStart.
  rewrite dropWhile_all by exact Hl.
  destruct (dropWhile isWhiteSpace s) as [|c m] eqn:E.
  - apply dropWhile_nil in E.
    assert (Ha : forallb isWhiteSpace (s ++ r) = true)
      by (rewrite forallb_app, E, Hr; reflexivity).
    apply dropWhile_nil in Ha; rewrite Ha; reflexivity.
  - pose proof (dropWhile_head isWhiteSpace s) as Hh; rewrite E in Hh.
    pose proof (take_drop isWhiteSpace s) as Hs; rewrite E in Hs.
    rewrite <- Hs at 1.
    rewrite <- app_assoc, dropWhile_all by apply takeWhile_all.
    simpl; rewrite Hh.
    change (c :: m ++ r) with ((c :: m) ++ r).
    rewrite rev_app_distr, dropWhile_all
      by (rewrite forallb_rev; exact Hr).
    reflexivity.
Qed.

(** ** startsWith, includes and split *)

Lemma startsWith_app (p s : jsstring) : startsWith p (p ++ s) = true.
Proof.
  induction p as [|a p IH]; simpl; [reflexivity|].
  now rewrite N.eqb_refl, IH.
Qed.

Lemma startsWith_inv (p s : jsstring) :
  startsWith p s = true -> exists t, s = p ++ t.
Proof.
  revert s; induction p as [|a p IH]; intros s H; simpl in *.
  - now exists s.
  - destruct s as [|b s]; [discriminate|].
    apply andb_true_iff in H as [Hab Hp]; apply N.eqb_eq in Hab; subst b.
    destruct (IH _ Hp) as [t ->]; now exists t.
Qed.

Lemma includes_cons (p : jsstring) (c : N) (s : jsstring) :
  includes p (c :: s) = false ->
  startsWith p (c :: s) = false /\ includes p s = false.
Proof. simpl; intros H; now apply orb_false_iff in H. Qed.

Lemma includes_app_r (p l s : jsstring) :
  includes p s = true -> includes p (l ++ s) = true.
Proof.
  intros H; induction l as [|c l IH]; [exact H|].
  simpl; rewrite IH; apply orb_true_r.
Qed.

(** Without an occurrence of the separator, [split] returns the whole
    string as its only piece. *)
Lemma splitFrom_no_sep (sep cur s : jsstring) :
  includes sep s = false -> splitFrom sep 0 cur s = [rev cur ++ s].
Proof.
  revert cur; induction s as [|c s IH]; intros cur H.
  - simpl; now rewrite app_nil_r.
  - apply includes_cons in H as [H1 H2].
    cbn [splitFrom]; rewrite H1, IH by exact H2.
    simpl; now rewrite <- app_assoc.
Qed.

Lemma split_no_sep (sep s : jsstring) :
  includes sep s = false -> split sep s = [s].
Proof. intros H; unfold split; now rewrite splitFrom_no_sep. Qed.

(** First piece of [split] with a one-unit separator: what precedes the
    first occurrence of that unit. *)
Lemma splitFrom_hd_unit (c0 : N) (cur s : jsstring) :
  hd [] (splitFrom [c0] 0 cur s)
  = rev cur ++ takeWhile (fun x => negb (x =? c0)) s.
Proof.
  revert cur; induction s as [|c s IH]; intros cur.
  - simpl; now rewrite app_nil_r.
  - cbn [splitFrom startsWith takeWhile].
    rewrite andb_true_r, (N.eqb_sym c c0).
    destruct (c0 =? c); simpl.
    + now rewrite app_nil_r.
    + rewrite IH; simpl; now rewrite <- app_assoc.
Qed.

(** ** sort *)

Lemma insertSorted_perm (A : Type) (cmp : A -> A -> Z) (x : A) (l : list A) :
  Permutation (insertSorted cmp x l) (x :: l).
Proof.
  induction l as [|y l IH]; simpl; [apply Permutation_refl|].
  destruct (cmp x y <=? 0)%Z; [apply Permutation_refl|].
  eapply Permutation_trans; [apply perm_skip, IH | apply perm_swap].
Qed.

Lemma sortWith_perm (A : Type) (cmp : A -> A -> Z) (l : list A) :
  Permutation (sortWith cmp l) l.
Proof.
  induction l as [|x l IH]; simpl; [apply Permutation_refl|].
  eapply Permutation_trans; [apply insertSorted_perm | now apply perm_skip].
Qed.

Section SortedOutput.
Variable A : Type.
Variable cmp : A -> A -> Z.
(** The elements on which the comparator is consistent. *)
Variable dom : A -> Prop.
Hypothesis cmp_total :
  forall a b, dom a -> dom b -> (0 < cmp a b)%Z -> (cmp b a <= 0)%Z.
Hypothesis cmp_trans :
  forall a b c, dom a -> dom b -> dom c ->
    (cmp a b <= 0)%Z -> (cmp b c <= 0)%Z -> (cmp a c <= 0)%Z.

Let le (a b : A) : Prop := (cmp a b <= 0)%Z.

Lemma insertSorted_sorted (x : A) (l : list A) :
  dom x -> Forall dom l -> StronglySorted le l ->
  StronglySorted le (insertSorted cmp x l).
Proof.
  intros Hx Hl Hs; induction Hs as [|y l Hs IH Hy]; simpl.
  - constructor; [constructor | constructor].
  - inversion Hl as [|? ? Hdy Hdl]; subst.
    destruct (cmp x y <=? 0)%Z eqn:E.
    + apply Z.leb_le in E.
      constructor; [now constructor|].
      constructor; [exact E|].
      rewrite Forall_forall in *; intros z Hz.
      apply (cmp_trans (b := y)); auto.
      apply Hy, Hz.
    + apply Z.leb_gt in E.
      constructor; [now apply IH|].
      apply (Permutation_Forall (Permutation_sym (insertSorted_perm cmp x l))).
      constructor; [now apply cmp_total | exact Hy].
Qed.

Lemma sortWith_sorted (l : list A) :
  Forall dom l -> StronglySorted le (sortWith cmp l).
Proof.
  induction l as [|x l IH]; intros Hl; simpl; [constructor|].
  inversion Hl; subst.
  apply insertSorted_sorted; auto.
  apply (Permutation_Forall (Permutation_sym (sortWith_perm cmp l))); auto.
Qed.
End SortedOutput.

(** ** Code-unit comparison *)

Lemma codeUnitCompare_refl (a : jsstring) : codeUnitCompare a a = Eq.
Proof. induction a as [|x a IH]; simpl; [|rewrite N.compare_refl]; auto. Qed.

Lemma codeUnitCompare_antisym (a b : jsstring) :
  codeUnitCompare b a = CompOpp (codeUnitCompare a b).
Proof.
  revert b; induction a as [|x a IH]; intros [|y b]; simpl; auto.
  rewrite (N.compare_antisym x y).
  destruct (x ?= y); simpl; auto.
Qed.

Lemma codeUnitCompare_le_trans (a b c : jsstring) :
  codeUnitCompare a b <> Gt -> codeUnitCompare b c <> Gt ->
  codeUnitCompare a c <> Gt.
Proof.
  revert b c; induction a as [|x a IH]; intros [|y b] [|z c]; simpl;
    try congruence.
  destruct (x ?= y) eqn:Exy; destruct (y ?= z) eqn:Eyz; try congruence;
    intros H1 H2.
  - apply N.compare_eq in Exy, Eyz; subst; rewrite N.compare_refl; eauto.
  - apply N.compare_eq in Exy; subst; now rewrite Eyz.
  - apply N.compare_eq in Eyz; subst; now rewrite Exy.
  - rewrite N.compare_lt_iff in Exy, Eyz.
    assert (E : (x ?= z) = Lt)
      by (apply N.compare_lt_iff; eapply N.lt_trans; eauto).
    now rewrite E.
Qed.

(** A comparison by sort keys is a consistent comparator. *)
Lemma compareByKey_total (key : jsstring -> list N) (a b : jsstring) :
  (0 < Host.compareByKey key a b)%Z -> (Host.compareByKey key b a <= 0)%Z.
Proof.
  unfold Host.compareByKey; rewrite (codeUnitCompare_antisym (key a) (key b)).
  destruct (codeUnitCompare (key a) (key b)); simpl; lia.
Qed.

Lemma compareByKey_trans (key : jsstring -> list N) (a b c : jsstring) :
  (Host.compareByKey key a b <= 0)%Z -> (Host.compareByKey key b c <= 0)%Z ->
  (Host.compareByKey key a c <= 0)%Z.
Proof.
  unfold Host.compareByKey; intros H1 H2.
  assert (H : codeUnitCompare (key a) (key c) <> Gt).
  { apply (@codeUnitCompare_le_trans _ (key b)).
    - destruct (codeUnitCompare (key a) (key b)); [congruence..|lia].
    - destruct (codeUnitCompare (key b) (key c)); [congruence..|lia]. }
  destruct (codeUnitCompare (key a) (key c)); [lia..|congruence].
Qed.

End JsFacts.

(* ================================================================== *)
(** * apiService.transitionTicket: the request body *)
(* ================================================================== *)

Module ApiServiceFacts.
Import Js JsFacts ApiService.

(** C10. The body of [transitionTicket(key, name, comment)] holds the
    field [transition_name] alone when the comment is null, empty or only
    white space; otherwise it holds, after it, the field [comment] with
    the comment stripped of the white space at its two ends. *)
Theorem transitionTicket_body (key name : jsstring)
  (comment : option jsstring) :
  endpoint (transitionTicket key name comment)
    = js "/tickets/" ++ key ++ js "/transition"
  /\ method (transitionTicket key name comment) = js "POST"
  /\ match comment with
     | None =>
       body (transitionTicket key name comment)
         = [(js "transition_name", name)]
     | Some c =>
       if forallb isWhiteSpace c
       then body (transitionTicket key name comment)
              = [(js "transition_name", name)]
       else body (transitionTicket key name comment)
              = [(js "transition_name", name); (js "comment", trim c)]
            /\ trim c <> []
            /\ exists l r,
                 c = l ++ trim c ++ r
                 /\ forallb isWhiteSpace l = true
                 /\ forallb isWhiteSpace r = true
                 /\ match trim c with
                    | [] => True
                    | u :: _ => isWhiteSpace u = false
                    end
                 /\ match rev (trim c) with
                    | [] => True
                    | u :: _ => isWhiteSpace u = false
                    end
     end.
Proof.
  split; [reflexivity|]. split; [reflexivity|].
  destruct comment as [c|]; [|reflexivity].
  unfold transitionTicket; cbn [body].
  rewrite truthy_trim.
  destruct (forallb isWhiteSpace c) eqn:E; cbn [negb].
  - now rewrite andb_false_r.
  - assert (Hc : truthy c = true) by (destruct c; [discriminate|reflexivity]).
    rewrite Hc; cbn [andb]. split; [reflexivity|]. split.
    + intros H; apply trim_nil_iff in H; congruence.
    + apply trim_spec.
Qed.

Lemma transitionTicket_body_examples :
  body (transitionTicket (js "PROJ-1") (js "Done") None)
    = [(js "transition_name", js "Done")]
  /\ body (transitionTicket (js "PROJ-1") (js "Done") (Some []))
     = [(js "transition_name", js "Done")]
  /\ body (transitionTicket (js "PROJ-1") (js "Done") (Some (js "  ")))
     = [(js "transition_name", js "Done")]
  /\ body (transitionTicket (js "PROJ-1") (js "Done")
             (Some (js "  fixed in 1.2 ")))
     = [(js "transition_name", js "Done"); (js "comment", js "fixed in 1.2")]
  /\ endpoint (transitionTicket (js "PROJ-1") (js "Done") None)
     = js "/tickets/PROJ-1/transition".
Proof. repeat split. Qed.

End ApiServiceFacts.

(* ================================================================== *)
(** * parseTicketInfo *)
(* ================================================================== *)

Module ParserFacts.
Import Js JsFacts Parser.
Local Open Scope N_scope.

Lemma fallbackKey_eq (s : jsstring) :
  fallbackKey s = trim (takeWhile notColon s).
Proof.
  unfold fallbackKey, split.
  change (js ":") with [58]; now rewrite splitFrom_hd_unit.
Qed.

(** C5, as the code has it. [parseTicketInfo] returns a record or null on
    every string; on a string without the separator [": "] it returns null,
    and the fallback key is the trimmed text before the first colon (the
    whole string when there is none), which is non-empty exactly when that
    text holds a code unit that is not white space. *)
Theorem parseTicketInfo_total_and_fallback (s : jsstring) :
  (parseTicketInfo s = None \/ exists info, parseTicketInfo s = Some info)
  /\ (includes (js ": ") s = false ->
      parseTicketInfo s = None
      /\ fallbackKey s = trim (takeWhile notColon s)
      /\ (fallbackKey s <> []
          <-> forallb isWhiteSpace (takeWhile notColon s) = false)).
Proof.
  split.
  - destruct (parseTicketInfo s) as [info|]; [right; now exists info | now left].
  - intros H; split; [|split].
    + unfold parseTicketInfo; now rewrite split_no_sep.
    + apply fallbackKey_eq.
    + rewrite fallbackKey_eq.
      pose proof (trim_nil_iff (takeWhile notColon s)) as T.
      destruct (forallb isWhiteSpace (takeWhile notColon s)); split;
        intros H1; try congruence.
      * exfalso; apply H1, T; reflexivity.
      * intros H2; apply T in H2; discriminate.
Qed.

Lemma parseTicketInfo_total_and_fallback_witness :
  includes (js ": ") (js "PROJ-9 broken entry") = false
  /\ parseTicketInfo (js "PROJ-9 broken entry") = None
  /\ fallbackKey (js "PROJ-9 broken entry")
     = trim (takeWhile notColon (js "PROJ-9 broken entry"))
  /\ (fallbackKey (js "PROJ-9 broken entry") <> []
      <-> forallb isWhiteSpace (takeWhile notColon (js "PROJ-9 broken entry"))
          = false).
Proof.
  split; [reflexivity|].
  exact (proj2 (parseTicketInfo_total_and_fallback (js "PROJ-9 broken entry"))
           eq_refl).
Defined.

Lemma fallbackKey_of_broken_entry :
  fallbackKey (js "PROJ-9 broken entry") = js "PROJ-9 broken entry"
  /\ fallbackKey (js "PROJ-9:broken entry") = js "PROJ-9".
Proof. split; reflexivity. Qed.

(** C5 as stated fails: a string without [": "] whose text before the
    first colon is blank gets an empty fallback key. *)
Lemma fallbackKey_can_be_empty :
  includes (js ": ") (js ":broken") = false
  /\ parseTicketInfo (js ":broken") = None
  /\ fallbackKey (js ":broken") = []
  /\ includes (js ": ") [] = false
  /\ parseTicketInfo [] = None
  /\ fallbackKey [] = [].
Proof. repeat split. Qed.

(** C6 at an encoding whose summary holds [": "].  The text after the
    first [": "] is ["Fix: crash [Alice] [Bug]"] and holds exactly two
    bracketed groups, so the claim promises the record with assignee
    ["Alice"], issue type ["Bug"] and priority ["Medium"].  The split on
    [": "] has three pieces, [rest] is only ["Fix"], no group is found
    there and the result is null.  With a summary free of [": "] the same
    two groups give the promised record. *)
Theorem parseTicketInfo_two_groups_after_separator :
  Spec.encode (js "PROJ-1") (js "Fix: crash") [js "Alice"; js "Bug"]
    = js "PROJ-1: Fix: crash [Alice] [Bug]"
  /\ Spec.afterFirst (js ": ") (js "PROJ-1: Fix: crash [Alice] [Bug]")
     = Some (js "Fix: crash [Alice] [Bug]")
  /\ extractBrackets (js "Fix: crash [Alice] [Bug]")
     = [js "Alice"; js "Bug"]
  /\ split (js ": ") (js "PROJ-1: Fix: crash [Alice] [Bug]")
     = [js "PROJ-1"; js "Fix"; js "crash [Alice] [Bug]"]
  /\ extractBrackets (js "Fix") = []
  /\ parseTicketInfo (js "PROJ-1: Fix: crash [Alice] [Bug]") = None
  /\ parseTicketInfo (js "PROJ-1: Fix crash [Alice] [Bug]")
     = Some (mkTicketInfo (js "PROJ-1") (js "Fix crash") (js "Alice")
               (js "Bug") (js "Medium")).
Proof. repeat split. Qed.

Lemma parseTicketInfo_old_format :
  parseTicketInfo (js "PROJ-7: Old format [Unassigned] [Task]")
  = Some (mkTicketInfo (js "PROJ-7") (js "Old format") (js "Non assigné")
            (js "Task") (js "Medium")).
Proof. reflexivity. Qed.

(** ** Encodings with a single separator *)

Lemma split_first_separator (K R cur : jsstring) :
  includes (js ": ") K = false ->
  splitFrom (js ": ") 0 cur (K ++ js ": " ++ R)
  = (rev cur ++ K) :: splitFrom (js ": ") 0 [] R.
Proof.
  change (js ": ") with [58; 32].
  revert cur; induction K as [|c K IH]; intros cur H.
  - cbn; now rewrite app_nil_r.
  - apply includes_cons in H as [H1 H2].
    change ((c :: K) ++ [58; 32] ++ R) with (c :: (K ++ [58; 32] ++ R)).
    cbn [splitFrom].
    assert (E : startsWith [58; 32] (c :: (K ++ [58; 32] ++ R)) = false).
    { destruct K as [|b K']; cbn in H1 |- *; [apply andb_false_r | exact H1]. }
    rewrite E, IH by exact H2.
    cbn [rev]; now rewrite <- app_assoc.
Qed.

Lemma split_encode (K S : jsstring) (groups : list jsstring) :
  includes (js ": ") K = false ->
  includes (js ": ") (Spec.remainder S groups) = false ->
  split (js ": ") (Spec.encode K S groups) = [K; Spec.remainder S groups].
Proof.
  intros HK HR; unfold split, Spec.encode.
  rewrite split_first_separator by exact HK.
  now rewrite splitFrom_no_sep by exact HR.
Qed.

Lemma bracketLoop_pass (pre s : jsstring) :
  forallb Spec.notOpening pre = true ->
  bracketLoop 0 (pre ++ s) = bracketLoop 0 s.
Proof.
  induction pre as [|c pre IH]; [reflexivity|].
  cbn [forallb]; intros H; apply andb_true_iff in H as [Hc Hpre].
  cbn [app bracketLoop matchBracketAt].
  unfold Spec.notOpening in Hc; apply negb_true_iff in Hc; rewrite Hc; auto.
Qed.

Lemma bracketLoop_skip (pre s : jsstring) :
  bracketLoop (List.length pre) (pre ++ s) = bracketLoop 0 s.
Proof.
  induction pre as [|c pre IH]; [reflexivity|].
  destruct s; simpl in *; exact IH.
Qed.

Lemma matchBracketAt_group (g s : jsstring) :
  Spec.validGroup g = true -> matchBracketAt (91 :: g ++ 93 :: s) = Some g.
Proof.
  unfold Spec.validGroup; intros H; apply andb_true_iff in H as [Hg Hc].
  unfold matchBracketAt; cbn [N.eqb Pos.eqb].
  rewrite (takeWhile_stop notClosing g 93 s Hc eq_refl).
  rewrite (dropWhile_all notClosing g (93 :: s) Hc).
  cbn; destruct g; [discriminate | reflexivity].
Qed.

Lemma bracketLoop_group (g s : jsstring) :
  Spec.validGroup g = true ->
  bracketLoop 0 (91 :: g ++ 93 :: s) = g :: bracketLoop 0 s.
Proof.
  intros H; cbn [bracketLoop]; rewrite matchBracketAt_group by exact H.
  f_equal.
  change (g ++ 93 :: s) with (g ++ [93] ++ s); rewrite app_assoc.
  replace (S (List.length g)) with (List.length (g ++ [93]))
    by (rewrite length_app; cbn; lia).
  apply bracketLoop_skip.
Qed.

Lemma bracketLoop_groups (groups : list jsstring) :
  forallb Spec.validGroup groups = true ->
  bracketLoop 0 (flat_map (fun g => js " [" ++ g ++ js "]") groups) = groups.
Proof.
  induction groups as [|g gs IH]; [reflexivity|].
  cbn [forallb flat_map]; intros H; apply andb_true_iff in H as [Hg Hgs].
  change (js " [") with [32; 91]; change (js "]") with [93].
  change (([32; 91] ++ g ++ [93]) ++ flat_map _ gs)
    with ([32] ++ 91 :: (g ++ [93]) ++ flat_map
            (fun g => js " [" ++ g ++ js "]") gs).
  rewrite bracketLoop_pass by reflexivity.
  rewrite <- app_assoc; cbn [app].
  rewrite bracketLoop_group by exact Hg.
  now rewrite IH.
Qed.

Lemma extractBrackets_remainder (S : jsstring) (groups : list jsstring) :
  forallb Spec.notOpening S = true ->
  forallb Spec.validGroup groups = true ->
  extractBrackets (Spec.remainder S groups) = groups.
Proof.
  intros HS Hg; unfold extractBrackets, Spec.remainder.
  rewrite bracketLoop_pass by exact HS.
  now apply bracketLoop_groups.
Qed.

Lemma endsClean_tail (c d : N) (X : jsstring) :
  endsClean (c :: d :: X) -> endsClean (d :: X).
Proof.
  unfold endsClean; cbn [rev].
  destruct (rev X ++ [d]) as [|e r] eqn:E; [|exact (fun H => H)].
  destruct (rev X); discriminate.
Qed.

Lemma spacesThenBracket_inside (X Y : jsstring) :
  X <> [] -> forallb Spec.notOpening X = true -> endsClean X ->
  spacesThenBracket (X ++ Y) = false.
Proof.
  induction X as [|c X IH]; [congruence|]; intros _ Hopen Hclean.
  cbn [forallb] in Hopen; apply andb_true_iff in Hopen as [Hc HX].
  unfold spacesThenBracket; cbn [app dropWhile].
  destruct (isWhiteSpace c) eqn:Ews.
  - destruct X as [|d X'].
    + unfold endsClean in Hclean; cbn in Hclean; congruence.
    + apply IH; [discriminate | exact HX | eapply endsClean_tail; eauto].
  - unfold Spec.notOpening in Hc; now apply negb_true_iff in Hc.
Qed.

Lemma lazyGroup_summary (X taken tail : jsstring) :
  forallb Spec.notOpening X = true ->
  forallb (fun c => negb (isLineTerminator c)) X = true ->
  endsClean X ->
  lazyGroup taken (X ++ 32 :: 91 :: tail) = Some (rev taken ++ X).
Proof.
  revert taken; induction X as [|c X IH]; intros taken Hopen Hline Hclean.
  - cbn; now rewrite app_nil_r.
  - cbn [lazyGroup app].
    change (c :: X ++ 32 :: 91 :: tail) with ((c :: X) ++ 32 :: 91 :: tail).
    rewrite spacesThenBracket_inside; [|discriminate|exact Hopen|exact Hclean].
    cbn [forallb app] in *.
    apply andb_true_iff in Hopen as [_ Hopen].
    apply andb_true_iff in Hline as [Hc Hline].
    apply negb_true_iff in Hc; rewrite Hc.
    rewrite IH; [cbn [rev]; now rewrite <- app_assoc | exact Hopen
                | exact Hline |].
    destruct X; [exact I | eapply endsClean_tail; eauto].
Qed.

Lemma extractSummary_remainder (S g : jsstring) (gs : list jsstring) :
  Spec.validSummary S = true ->
  extractSummary (Spec.remainder S (g :: gs)) = S.
Proof.
  unfold Spec.validSummary; intros H.
  apply andb_true_iff in H as [H Htrim]; apply andb_true_iff in H as [Ho Hl].
  apply streq_true in Htrim.
  assert (Hclean : endsClean S).
  { destruct (trim_spec S) as (_ & _ & _ & _ & _ & _ & Hc).
    rewrite Htrim in Hc; exact Hc. }
  unfold Spec.remainder; cbn [flat_map].
  change (js " [") with [32; 91].
  rewrite <- !app_assoc; cbn [app].
  set (tail := g ++ js "]" ++ _).
  unfold extractSummary, summaryMatch.
  destruct S as [|c S'].
  - reflexivity.
  - cbn [app forallb] in *.
    apply andb_true_iff in Ho as [_ Ho].
    apply andb_true_iff in Hl as [Hc Hl].
    apply negb_true_iff in Hc; rewrite Hc.
    rewrite lazyGroup_summary; [exact Htrim | exact Ho | exact Hl |].
    destruct S'; [exact I | eapply endsClean_tail; eauto].
Qed.

(** Where the separator [": "] occurs once, the record is the one the
    encoding names: key, summary (it may be empty), assignee with
    ["Unassigned"] shown as ["Non assigné"], issue type and priority. *)
Theorem parseTicketInfo_encode3 (K S A T P : jsstring) :
  Spec.wellFormed K S [A; T; P] = true ->
  parseTicketInfo (Spec.encode K S [A; T; P])
  = Some (mkTicketInfo K S
            (if streq A (js "Unassigned") then js "Non assigné" else A) T P).
Proof.
  unfold Spec.wellFormed, Spec.validKey; intros H.
  apply andb_true_iff in H as [H HR]; apply andb_true_iff in H as [H Hg].
  apply andb_true_iff in H as [HK HS]; apply andb_true_iff in HK as [HK Hk].
  apply negb_true_iff in HK, HR; apply streq_true in Hk.
  unfold parseTicketInfo.
  rewrite split_encode, extractSummary_remainder by assumption.
  rewrite extractBrackets_remainder;
    [|unfold Spec.validSummary in HS;
      now repeat (apply andb_true_iff in HS as [HS _]) | exact Hg].
  rewrite Hk; unfold orElse.
  cbn [forallb] in Hg.
  repeat (apply andb_true_iff in Hg as [? Hg]).
  assert (HP : truthy P = true)
    by (unfold Spec.validGroup in *; now destruct (truthy P)).
  now rewrite HP.
Qed.

(** The older encoding with two groups gets priority ["Medium"]. *)
Theorem parseTicketInfo_encode2 (K S A T : jsstring) :
  Spec.wellFormed K S [A; T] = true ->
  parseTicketInfo (Spec.encode K S [A; T])
  = Some (mkTicketInfo K S
            (if streq A (js "Unassigned") then js "Non assigné" else A) T
            (js "Medium")).
Proof.
  unfold Spec.wellFormed, Spec.validKey; intros H.
  apply andb_true_iff in H as [H HR]; apply andb_true_iff in H as [H Hg].
  apply andb_true_iff in H as [HK HS]; apply andb_true_iff in HK as [HK Hk].
  apply negb_true_iff in HK, HR; apply streq_true in Hk.
  unfold parseTicketInfo.
  rewrite split_encode, extractSummary_remainder by assumption.
  rewrite extractBrackets_remainder;
    [|unfold Spec.validSummary in HS;
      now repeat (apply andb_true_iff in HS as [HS _]) | exact Hg].
  now rewrite Hk.
Qed.

Lemma parseTicketInfo_encode3_examples :
  Spec.encode (js "PROJ-1") (js "Fix crash") [js "Alice"; js "Bug"; js "High"]
    = js "PROJ-1: Fix crash [Alice] [Bug] [High]"
  /\ parseTicketInfo (js "PROJ-1: Fix crash [Alice] [Bug] [High]")
     = Some (mkTicketInfo (js "PROJ-1") (js "Fix crash") (js "Alice")
               (js "Bug") (js "High"))
  /\ Spec.encode (js "PROJ-2") [] [js "Unassigned"; js "Task"; js "Low"]
     = js "PROJ-2:  [Unassigned] [Task] [Low]"
  /\ parseTicketInfo (js "PROJ-2:  [Unassigned] [Task] [Low]")
     = Some (mkTicketInfo (js "PROJ-2") [] (js "Non assigné") (js "Task")
               (js "Low")).
Proof.
  split; [reflexivity|]. split.
  - exact (@parseTicketInfo_encode3 (js "PROJ-1") (js "Fix crash")
             (js "Alice") (js "Bug") (js "High") eq_refl).
  - split; [reflexivity|].
    exact (@parseTicketInfo_encode3 (js "PROJ-2") [] (js "Unassigned")
             (js "Task") (js "Low") eq_refl).
Defined.

Lemma parseTicketInfo_encode2_example :
  parseTicketInfo (js "PROJ-7: Old format [Bob] [Task]")
  = Some (mkTicketInfo (js "PROJ-7") (js "Old format") (js "Bob") (js "Task")
            (js "Medium")).
Proof.
  exact (@parseTicketInfo_encode2 (js "PROJ-7") (js "Old format") (js "Bob")
           (js "Task") eq_refl).
Defined.

(** C1 at a summary that holds [": "]: the split on [": "] has three
    pieces, [rest] is only ["Fix"], no bracket is found and the result is
    null, where the claim promises the record with summary
    ["Fix: crash"]. *)
Theorem parseTicketInfo_summary_with_separator :
  split (js ": ") (js "PROJ-1: Fix: crash [Alice] [Bug] [High]")
    = [js "PROJ-1"; js "Fix"; js "crash [Alice] [Bug] [High]"]
  /\ extractBrackets (js "Fix") = []
  /\ parseTicketInfo (js "PROJ-1: Fix: crash [Alice] [Bug] [High]") = None
  /\ parseTicketInfo (js "PROJ-1: Fix crash [Alice] [Bug] [High]")
     = Some (mkTicketInfo (js "PROJ-1") (js "Fix crash") (js "Alice")
               (js "Bug") (js "High")).
Proof. repeat split. Qed.

End ParserFacts.

(* ================================================================== *)
(** * TransitionModal: the closure-comment gate *)
(* ================================================================== *)

Module TransitionModalFacts.
Import Js JsFacts ApiService TransitionModal.

Lemma field_transition_name (key name : jsstring) (c : option jsstring) :
  field (js "transition_name") (body (transitionTicket key name c))
  = Some name.
Proof.
  unfold transitionTicket; destruct c as [c|]; [|reflexivity].
  destruct (truthy c && truthy (trim c)); reflexivity.
Qed.

Lemma field_comment (key name c : jsstring) :
  truthy (trim c) = true ->
  field (js "comment") (body (transitionTicket key name (Some c)))
  = Some (trim c).
Proof.
  intros H; unfold transitionTicket; cbn [body].
  assert (Hc : truthy c = true) by (destruct c; [discriminate H | reflexivity]).
  rewrite Hc, H; reflexivity.
Qed.

Section Gate.
Variable toLowerCase : jsstring -> jsstring.
Variable ticketKey : jsstring.

Lemma handleSubmit_gated (st : ModalState) (rq : Request) :
  submitDisabled toLowerCase st = false ->
  handleSubmit ticketKey st = Some rq ->
  gated toLowerCase rq.
Proof.
  unfold submitDisabled, handleSubmit; intros Hd Hs.
  destruct (truthy (selectedTransition st)) eqn:Hsel; [|discriminate].
  injection Hs as <-.
  exists (selectedTransition st); split; [apply field_transition_name|].
  split; [now apply truthy_true|].
  intros Hdone; rewrite Hdone in Hd.
  repeat (apply orb_false_iff in Hd as [Hd ?]).
  cbn [andb] in *.
  assert (Ht : truthy (trim (comment st)) = true)
    by (destruct (truthy (trim (comment st))); [reflexivity | discriminate]).
  exists (trim (comment st)); split;
    [now apply field_comment | now apply truthy_true].
Qed.

Lemma modalRun_gated (st : ModalState) (evs : list ModalEvent) :
  Forall (gated toLowerCase) (modalRun toLowerCase ticketKey st evs).
Proof.
  revert st; induction evs as [|ev evs IH]; intros st; [constructor|].
  cbn [modalRun].
  destruct ev; cbn [modalStep]; try apply IH.
  - destruct (submitDisabled toLowerCase st) eqn:Hd; [apply IH|].
    destruct (handleSubmit ticketKey st) as [rq|] eqn:Hs; [|apply IH].
    constructor; [eapply handleSubmit_gated; eauto | apply IH].
  - destruct success; apply IH.
Qed.
End Gate.

(** C9. Along every sequence of events of the modal, from every state,
    each transition request sent names a selected (non-empty) transition
    and, when that name requires a closure comment, carries a non-empty
    comment.  With nothing in flight, pressing submit sends the request
    exactly when a transition is selected and the comment is not blank or
    not required; the request then holds the comment field when the text
    typed is not blank and omits it otherwise, so a transition that
    requires no comment is sent with or without one. *)
Theorem transition_submission_gate (toLowerCase : jsstring -> jsstring)
  (ticketKey : jsstring) :
  (forall st evs,
     Forall (gated toLowerCase) (modalRun toLowerCase ticketKey st evs))
  /\ (forall name c names,
        modalRun toLowerCase ticketKey (ready name c names) [PressSubmit]
        = if truthy name
             && negb (isTransitionToDone toLowerCase name
                      && forallb isWhiteSpace c)
          then [transitionTicket ticketKey name (Some c)]
          else [])
  /\ (forall name c,
        field (js "comment") (body (transitionTicket ticketKey name (Some c)))
        = if forallb isWhiteSpace c then None else Some (trim c)).
Proof.
  split; [intros; apply modalRun_gated|]. split.
  - intros name c names.
    unfold ready; cbn [modalRun modalStep].
    unfold submitDisabled, handleSubmit; cbn [loading loadingTransitions
      selectedTransition comment orb].
    rewrite truthy_trim, negb_involutive, orb_false_r.
    destruct (truthy name); cbn [negb orb andb]; [|reflexivity].
    destruct (isTransitionToDone toLowerCase name && forallb isWhiteSpace c);
      reflexivity.
  - intros name c.
    unfold transitionTicket; cbn [body]; rewrite truthy_trim.
    destruct (forallb isWhiteSpace c) eqn:E; cbn [negb].
    + now rewrite andb_false_r.
    + assert (Hc : truthy c = true) by (destruct c; [discriminate|reflexivity]).
      now rewrite Hc.
Qed.

Lemma transition_submission_gate_witness :
  modalRun Host.toLowerCase (js "PROJ-1")
    (ready [] [] [js "Mark as Done"; js "Reopen"])
    [ PressSubmit;
      SelectTransition (js "Mark as Done"); PressSubmit;
      EditComment (js "   "); PressSubmit;
      EditComment (js " fixed in 1.2 "); PressSubmit; SubmitSettled false;
      SelectTransition (js "Reopen"); EditComment []; PressSubmit ]
  = [ transitionTicket (js "PROJ-1") (js "Mark as Done")
        (Some (js " fixed in 1.2 "));
      transitionTicket (js "PROJ-1") (js "Reopen") (Some []) ]
  /\ Forall (gated Host.toLowerCase)
       [ transitionTicket (js "PROJ-1") (js "Mark as Done")
           (Some (js " fixed in 1.2 "));
         transitionTicket (js "PROJ-1") (js "Reopen") (Some []) ]
  /\ field (js "comment")
       (body (transitionTicket (js "PROJ-1") (js "Reopen") (Some [])))
     = None.
Proof.
  split; [reflexivity|]. split.
  - exact (proj1 (transition_submission_gate Host.toLowerCase (js "PROJ-1"))
             (ready [] [] [js "Mark as Done"; js "Reopen"])
             [ PressSubmit;
               SelectTransition (js "Mark as Done"); PressSubmit;
               EditComment (js "   "); PressSubmit;
               EditComment (js " fixed in 1.2 "); PressSubmit;
               SubmitSettled false;
               SelectTransition (js "Reopen"); EditComment [];
               PressSubmit ]).
  - exact (proj2 (proj2 (transition_submission_gate Host.toLowerCase
                           (js "PROJ-1")))
             (js "Reopen") []).
Defined.

End TransitionModalFacts.

(* ================================================================== *)
(** * JiraManagerPro: refresh, status order, facets *)
(* ================================================================== *)

Module JiraManagerProFacts.
Import Js JsFacts Parser JiraManagerPro.

(** ** loadTickets *)

(** C2, as the code has it.  A refresh that fails empties the board: the
    [tickets] mapping becomes the empty object, the error message is the
    error's message or, when it has none, the fixed fallback text, and
    loading ends.  A refresh that succeeds replaces the board by the data
    received and leaves no error. *)
Theorem loadTickets_rejected_clears_board (st : BoardState)
  (message : jsstring) (data : Board) :
  tickets (loadTickets st (Rejected message)) = []
  /\ error (loadTickets st (Rejected message))
     = orElse message (js "Impossible de charger les tickets")
  /\ error (loadTickets st (Rejected message)) <> []
  /\ loading (loadTickets st (Rejected message)) = false
  /\ loadTickets st (Resolved data) = mkBoardState data false [].
Proof.
  repeat split.
  cbn [loadTickets error tickets loading]; unfold orElse.
  destruct message; cbn [truthy]; discriminate.
Qed.

(** C2 as stated fails: after a failed refresh the board no longer holds
    the tickets loaded before. *)
Lemma loadTickets_rejected_loses_board :
  tickets (loadTickets Samples.loadedBoard
             (Rejected (js "HTTP error! status: 500")))
  <> tickets Samples.loadedBoard.
Proof. discriminate. Qed.

(** ** Filter facets *)

Lemma In_setAdd (x p : jsstring) (s : list jsstring) :
  In p (setAdd x s) <-> p = x \/ In p s.
Proof.
  unfold setAdd; destruct (existsb (streq x) s) eqn:E.
  - split; [now right|]. intros [->|H]; [|exact H].
    apply existsb_exists in E as (y & Hy & Hxy).
    apply streq_true in Hxy; now subst.
  - rewrite in_app_iff; simpl; split.
    + intros [H|[H|[]]]; [now right | now left].
    + intros [->|H]; [right; now left | now left].
Qed.

Lemma In_fold_setAdd (l init : list jsstring) (p : jsstring) :
  In p (fold_left (fun acc q => setAdd q acc) l init)
  <-> In p l \/ In p init.
Proof.
  revert init; induction l as [|x l IH]; intros init; simpl; [tauto|].
  rewrite IH, In_setAdd; intuition congruence.
Qed.

Lemma In_sortDefault (p : jsstring) (l : list jsstring) :
  In p (sortDefault l) <-> In p l.
Proof.
  unfold sortDefault; split; apply Permutation_in;
    [|apply Permutation_sym]; apply sortWith_perm.
Qed.

Lemma sentinel_never_added (l acc : list jsstring) :
  ~ In (js "Non assigné") acc ->
  ~ In (js "Non assigné")
      (fold_left
         (fun assignees ticket =>
            match parseTicketInfo ticket with
            | Some ticketInfo =>
              if truthy (assignee ticketInfo)
                 && negb (streq (assignee ticketInfo) (js "Non assigné"))
              then setAdd (assignee ticketInfo) assignees
              else assignees
            | None => assignees
            end) l acc).
Proof.
  revert acc; induction l as [|t l IH]; intros acc Hacc; [exact Hacc|].
  cbn [fold_left]; apply IH.
  destruct (parseTicketInfo t) as [info|]; [|exact Hacc].
  destruct (truthy (assignee info)); cbn [andb]; [|exact Hacc].
  destruct (streq (assignee info) (js "Non assigné")) eqn:E; cbn [negb];
    [exact Hacc|].
  apply streq_false in E.
  intros H; apply In_setAdd in H as [H|H]; [congruence | now apply Hacc].
Qed.

Lemma parsed_priority_truthy (ticket : jsstring) (info : TicketInfo) :
  parseTicketInfo ticket = Some info -> truthy (priority info) = true.
Proof.
  unfold parseTicketInfo.
  destruct (split (js ": ") ticket) as [|p0 [|rest more]]; try discriminate.
  destruct (extractBrackets rest) as [|b0 [|b1 [|b2 bs]]]; try discriminate;
    intros H; injection H as <-; cbn [priority]; [reflexivity|].
  unfold orElse; destruct (truthy b2) eqn:E; [exact E | reflexivity].
Qed.

(** The scan of the board for priorities collects exactly the priorities
    of the ticket strings that parse. *)
Lemma observed_priorities_fold (l : list jsstring) (acc : list jsstring)
  (p : jsstring) :
  In p (fold_left
          (fun priorities ticket =>
             match parseTicketInfo ticket with
             | Some ticketInfo =>
               if truthy (priority ticketInfo)
               then setAdd (priority ticketInfo) priorities
               else priorities
             | None => priorities
             end) l acc)
  <-> In p acc
      \/ exists ticket info,
           In ticket l /\ parseTicketInfo ticket = Some info
           /\ priority info = p.
Proof.
  revert acc; induction l as [|t l IH]; intros acc.
  - cbn; split; [tauto|]. intros [H|(t & i & [] & _)]; exact H.
  - cbn [fold_left]; rewrite IH; clear IH.
    destruct (parseTicketInfo t) as [info|] eqn:Ep.
    + rewrite (parsed_priority_truthy t Ep), In_setAdd; split.
      * intros [[->|H]|(t' & i & Ht' & Hp & Hi)].
        -- right; exists t, info; cbn; auto.
        -- now left.
        -- right; exists t', i; cbn; auto.
      * intros [H|(t' & i & [<-|Ht'] & Hp & Hi)].
        -- left; now right.
        -- left; left; congruence.
        -- right; exists t', i; auto.
    + split.
      * intros [H|(t' & i & Ht' & Hp & Hi)]; [now left|].
        right; exists t', i; cbn; auto.
      * intros [H|(t' & i & [<-|Ht'] & Hp & Hi)];
          [now left | congruence | right; exists t', i; auto].
Qed.

(** C7. For every board the priorities facet holds the four canonical
    priorities, and it holds exactly these together with the priority of
    every ticket string of the board that parses: a priority is offered
    if and only if it is [Low], [Medium], [High] or [Highest] or some
    ticket of the board carries it.  The assignees facet never holds the
    sentinel ["Non assigné"]. *)
Theorem facets_priorities_and_assignees (board : Board) :
  AVAILABLE_PRIORITIES = [js "Low"; js "Medium"; js "High"; js "Highest"]
  /\ incl AVAILABLE_PRIORITIES (uniquePriorities board)
  /\ (forall p,
        In p (uniquePriorities board)
        <-> (exists ticket info,
               In ticket (allTickets board)
               /\ parseTicketInfo ticket = Some info
               /\ priority info = p)
            \/ In p AVAILABLE_PRIORITIES)
  /\ ~ In (js "Non assigné") (uniqueAssignees board).
Proof.
  assert (H : forall p,
             In p (uniquePriorities board)
             <-> (exists ticket info,
                    In ticket (allTickets board)
                    /\ parseTicketInfo ticket = Some info
                    /\ priority info = p)
                 \/ In p AVAILABLE_PRIORITIES).
  { intros p; unfold uniquePriorities, observedPriorities.
    rewrite In_sortDefault, In_fold_setAdd, observed_priorities_fold.
    cbn [In]; tauto. }
  split; [reflexivity|]. split; [|split; [exact H|]].
  - intros p Hp; apply H; now right.
  - apply sentinel_never_added; intros [].
Qed.

Lemma facets_priorities_and_assignees_witness :
  incl AVAILABLE_PRIORITIES (uniquePriorities Samples.mixedBoard)
  /\ In (js "Urgent") (uniquePriorities Samples.mixedBoard)
  /\ ~ In (js "Non assigné") (uniqueAssignees Samples.mixedBoard).
Proof.
  destruct (facets_priorities_and_assignees Samples.mixedBoard)
    as (_ & H1 & H2 & H3).
  split; [exact H1|]. split; [|exact H3].
  apply H2; left.
  exists (js "PROJ-1: Fix crash [Alice] [Bug] [Urgent]"),
    (mkTicketInfo (js "PROJ-1") (js "Fix crash") (js "Alice") (js "Bug")
       (js "Urgent")).
  split; [now left|]. split; reflexivity.
Defined.

Lemma facets_of_mixed_board :
  uniquePriorities Samples.mixedBoard
    = [js "High"; js "Highest"; js "Low"; js "Medium"; js "Urgent"]
  /\ uniqueAssignees Samples.mixedBoard = [js "Alice"]
  /\ uniqueTypes Samples.mixedBoard = [js "Bug"; js "Story"; js "Task"]
  /\ uniquePriorities []
     = [js "High"; js "Highest"; js "Low"; js "Medium"]
  /\ ticketTypes [] = [js "Task"; js "Bug"; js "Story"; js "Epic"].
Proof. repeat split. Qed.

(** ** Status order *)

Lemma ownProperty_statusOrder_nonzero (a : jsstring) (n : Z) :
  ownProperty a statusOrder = Some n -> n <> 0%Z.
Proof.
  unfold statusOrder; cbn [ownProperty].
  repeat (destruct (streq a _); [intros H; injection H as <-; discriminate|]).
  discriminate.
Qed.

Lemma orderOf_own (a : jsstring) :
  isInherited a = false -> orderOf a = OrderNum (Spec.statusRank a).
Proof.
  intros H; unfold orderOf, Spec.statusRank.
  destruct (ownProperty a statusOrder) as [n|] eqn:E.
  - apply ownProperty_statusOrder_nonzero in E.
    apply Z.eqb_neq in E; now rewrite E.
  - now rewrite H.
Qed.

Section StatusOrderFacts.
Variable localeCompare : jsstring -> jsstring -> Z.
(** [localeCompare] is a consistent comparator. *)
Hypothesis localeCompare_total :
  forall a b, (0 < localeCompare a b)%Z -> (localeCompare b a <= 0)%Z.
Hypothesis localeCompare_trans :
  forall a b c, (localeCompare a b <= 0)%Z -> (localeCompare b c <= 0)%Z ->
    (localeCompare a c <= 0)%Z.

Let own (a : jsstring) : Prop := isInherited a = false.

Lemma compareStatuses_own (a b : jsstring) :
  own a -> own b ->
  compareStatuses localeCompare a b
  = if (Spec.statusRank a =? Spec.statusRank b)%Z then localeCompare a b
    else (Spec.statusRank a - Spec.statusRank b)%Z.
Proof.
  intros Ha Hb; unfold compareStatuses.
  now rewrite (orderOf_own a Ha), (orderOf_own b Hb).
Qed.

Lemma compareStatuses_le (a b : jsstring) :
  own a -> own b ->
  ((compareStatuses localeCompare a b <= 0)%Z
   <-> Spec.rankThenLocale localeCompare a b).
Proof.
  intros Ha Hb; rewrite compareStatuses_own by assumption.
  unfold Spec.rankThenLocale.
  destruct (Z.eqb_spec (Spec.statusRank a) (Spec.statusRank b)); lia.
Qed.

Lemma compareStatuses_total (a b : jsstring) :
  own a -> own b ->
  (0 < compareStatuses localeCompare a b)%Z ->
  (compareStatuses localeCompare b a <= 0)%Z.
Proof.
  intros Ha Hb; rewrite !compareStatuses_own by assumption.
  rewrite (Z.eqb_sym (Spec.statusRank b)).
  destruct (Z.eqb_spec (Spec.statusRank a) (Spec.statusRank b));
    [apply localeCompare_total | lia].
Qed.

Lemma compareStatuses_trans (a b c : jsstring) :
  own a -> own b -> own c ->
  (compareStatuses localeCompare a b <= 0)%Z ->
  (compareStatuses localeCompare b c <= 0)%Z ->
  (compareStatuses localeCompare a c <= 0)%Z.
Proof.
  intros Ha Hb Hc; rewrite !compareStatuses_le by assumption.
  unfold Spec.rankThenLocale; intros [H1|[H1 L1]] [H2|[H2 L2]];
    try (left; lia).
  right; split; [lia | eapply localeCompare_trans; eauto].
Qed.

Lemma sorted_rankThenLocale (l : list jsstring) :
  Forall own l ->
  StronglySorted (fun a b => (compareStatuses localeCompare a b <= 0)%Z) l ->
  StronglySorted (Spec.rankThenLocale localeCompare) l.
Proof.
  intros Hl Hs; induction Hs as [|a l Hs IH Ha]; [constructor|].
  inversion Hl; subst; constructor; [auto|].
  rewrite Forall_forall in *; intros b Hb.
  apply compareStatuses_le; auto.
Qed.

(** C3, as the code has it.  On labels that are not names of properties an
    object inherits, and with a consistent [localeCompare], the result is
    the labels rearranged so that ranks (1 for to-do labels, 2 for
    in-progress labels, 3 for done labels, 999 for the rest) never decrease
    and labels of equal rank follow the host's [localeCompare]; the four
    labels of the example come out in the order the specification gives,
    whatever [localeCompare] is. *)
Theorem getOrderedStatuses_sorted (labels : list jsstring) :
  Forall (fun a => isInherited a = false) labels ->
  Permutation (getOrderedStatuses localeCompare labels) labels
  /\ StronglySorted (Spec.rankThenLocale localeCompare)
       (getOrderedStatuses localeCompare labels)
  /\ map Spec.statusRank
       [js "À faire"; js "Todo"; js "Open"; js "En cours"; js "In Progress";
        js "Terminé"; js "Done"; js "Closed"; js "Resolved"; js "Mystery"]
     = [1; 1; 1; 2; 2; 3; 3; 3; 3; 999]%Z
  /\ getOrderedStatuses localeCompare
       [js "Done"; js "À faire"; js "En cours"; js "Mystery"]
     = [js "À faire"; js "En cours"; js "Done"; js "Mystery"].
Proof.
  intros Hl; unfold getOrderedStatuses.
  split; [apply sortWith_perm|]. split; [|split; reflexivity].
  apply sorted_rankThenLocale.
  - apply (Permutation_Forall
             (Permutation_sym (sortWith_perm (compareStatuses localeCompare)
                                 labels))); exact Hl.
  - apply (@sortWith_sorted _ (compareStatuses localeCompare) own).
    + exact compareStatuses_total.
    + exact compareStatuses_trans.
    + exact Hl.
Qed.
End StatusOrderFacts.

Lemma getOrderedStatuses_sorted_witness :
  Forall (fun a => isInherited a = false) Samples.mixedLabels
  /\ Permutation (getOrderedStatuses Host.localeCompare Samples.mixedLabels)
       Samples.mixedLabels
  /\ StronglySorted (Spec.rankThenLocale Host.localeCompare)
       (getOrderedStatuses Host.localeCompare Samples.mixedLabels).
Proof.
  assert (H : Forall (fun a => isInherited a = false) Samples.mixedLabels)
    by (repeat constructor).
  split; [exact H|].
  destruct (@getOrderedStatuses_sorted Host.localeCompare
              (compareByKey_total Host.sortKey)
              (compareByKey_trans Host.sortKey)
              Samples.mixedLabels H) as (H1 & H2 & _).
  split; [exact H1 | exact H2].
Defined.

Lemma getOrderedStatuses_mixed_labels :
  getOrderedStatuses Host.localeCompare Samples.mixedLabels
  = [js "Open"; js "Closed"; js "Done"; js "alpha"; js "Zeta"].
Proof. reflexivity. Qed.

(** C3 as stated fails.  The tie between two unranked labels is decided by
    [localeCompare], which puts ["alpha"] before ["Zeta"], while the order
    of code units has ["Zeta"] first; and a label that names an inherited
    property, such as ["constructor"], is not ranked 999: it stays before
    ["Done"]. *)
Lemma getOrderedStatuses_not_code_unit_order :
  getOrderedStatuses Host.localeCompare [js "Zeta"; js "alpha"]
    = [js "alpha"; js "Zeta"]
  /\ Spec.orderedStatuses [js "Zeta"; js "alpha"] = [js "Zeta"; js "alpha"]
  /\ getOrderedStatuses Host.localeCompare [js "constructor"; js "Done"]
     = [js "constructor"; js "Done"]
  /\ Spec.orderedStatuses [js "constructor"; js "Done"]
     = [js "Done"; js "constructor"].
Proof. repeat split. Qed.

End JiraManagerProFacts.

(* ================================================================== *)
(** * The analytics dashboard: trend and most common type *)
(* ================================================================== *)

Module AnalyticsFacts.
Import Js JsFacts AnalyticsDashboard.
Local Open Scope Q_scope.

Lemma orZero_id (x : Z) : orZero x = x.
Proof. unfold orZero; destruct (Z.eqb_spec x 0); congruence. Qed.

Lemma sumCounts_from (l : list WeeklyBucket) (a : Z) :
  fold_left (fun sum w => (sum + orZero (count w))%Z) l a
  = (a + fold_right Z.add 0 (map count l))%Z.
Proof.
  revert a; induction l as [|w l IH]; intros a; simpl; [lia|].
  rewrite IH, orZero_id; lia.
Qed.

Lemma sumCounts_eq (l : list WeeklyBucket) :
  sumCounts l = fold_right Z.add 0%Z (map count l).
Proof. unfold sumCounts; now rewrite sumCounts_from. Qed.

(** The average the code computes is the mean of the counts. *)
Lemma average_mean (l : list WeeklyBucket) :
  average l = Spec.mean (map count l).
Proof.
  destruct l as [|w l]; [reflexivity|].
  unfold average, Spec.mean; rewrite sumCounts_eq.
  replace (Z.max (Z.of_nat (List.length (w :: l))) 1)
    with (Z.of_nat (List.length (w :: l))) by (cbn [List.length]; lia).
  rewrite <- (length_map count (w :: l)); reflexivity.
Qed.

Lemma sliceLast_lastFour (A : Type) (l : list A) :
  sliceLast 4 l = Spec.lastFour l.
Proof.
  unfold sliceLast, Spec.lastFour; now rewrite firstn_rev, rev_involutive.
Qed.

Lemma Forall_firstn_keep (A : Type) (P : A -> Prop) (n : nat) (l : list A) :
  Forall P l -> Forall P (firstn n l).
Proof.
  intros H; revert n; induction H; intros [|n]; simpl; constructor; auto.
Qed.

Lemma Forall_skipn_keep (A : Type) (P : A -> Prop) (n : nat) (l : list A) :
  Forall P l -> Forall P (skipn n l).
Proof.
  intros H; revert n; induction H; intros [|n]; simpl; auto.
Qed.

Lemma sum_nonneg (cs : list Z) :
  Forall (fun c => (0 <= c)%Z) cs -> (0 <= fold_right Z.add 0 cs)%Z.
Proof. induction 1; simpl; lia. Qed.

Lemma mean_nonneg (cs : list Z) :
  Forall (fun c => (0 <= c)%Z) cs -> 0 <= Spec.mean cs.
Proof.
  intros H; destruct cs as [|c cs]; [apply Qle_refl|].
  unfold Spec.mean, Qdiv; apply Qmult_le_0_compat.
  - change 0 with (inject_Z 0); rewrite <- Zle_Qle; now apply sum_nonneg.
  - apply Qinv_le_0_compat.
    change 0 with (inject_Z 0); rewrite <- Zle_Qle; lia.
Qed.

Lemma Qgtb_zero (x : Q) : 0 <= x -> Qgtb x 0 = negb (Qeq_bool x 0).
Proof.
  intros Hx; unfold Qgtb.
  destruct (Qle_bool x 0) eqn:E1; destruct (Qeq_bool x 0) eqn:E2;
    try reflexivity; exfalso.
  - apply Qle_bool_iff in E1.
    assert (E : Qeq_bool x 0 = true)
      by (apply Qeq_bool_iff, Qle_antisym; assumption).
    congruence.
  - apply Qeq_bool_iff in E2.
    assert (E : Qle_bool x 0 = true)
      by (apply Qle_bool_iff; rewrite E2; apply Qle_refl).
    congruence.
Qed.

Lemma Qle_bool_compare (x y : Q) :
  Qle_bool x y = match x ?= y with Gt => false | _ => true end.
Proof.
  destruct (x ?= y) eqn:C.
  - apply Qle_bool_iff, Qle_alt; rewrite C; discriminate.
  - apply Qle_bool_iff, Qle_alt; rewrite C; discriminate.
  - destruct (Qle_bool x y) eqn:E; [|reflexivity].
    apply Qle_bool_iff in E; exfalso; exact (proj1 (Qle_alt x y) E C).
Qed.

Lemma Qgtb_compare (x y : Q) :
  Qgtb x y = match x ?= y with Gt => true | _ => false end.
Proof.
  unfold Qgtb; rewrite Qle_bool_compare; now destruct (x ?= y).
Qed.

Lemma Qcompare_swap (x y : Q) : (y ?= x) = CompOpp (x ?= y).
Proof. unfold Qcompare; apply Z.compare_antisym. Qed.

Lemma Qgtb_compare_below (x y : Q) :
  Qgtb y x = match x ?= y with Lt => true | _ => false end.
Proof.
  rewrite Qgtb_compare, Qcompare_swap; now destruct (x ?= y).
Qed.

(** The trend the code computes is the trend of the specification. *)
Lemma computeTrend_spec (weeklyData : list WeeklyBucket) :
  Forall (fun w => (0 <= count w)%Z) weeklyData ->
  Spec.trendOf (map count weeklyData)
  = (fst (computeTrend weeklyData), Qabs (snd (computeTrend weeklyData))).
Proof.
  intros Hpos; unfold Spec.trendOf, computeTrend.
  rewrite <- sliceLast_lastFour.
  assert (Hrecent : Forall (fun w => (0 <= count w)%Z) (sliceLast 4 weeklyData))
    by (apply Forall_skipn_keep, Hpos).
  assert (Hmap : sliceLast 4 (map count weeklyData)
                 = map count (sliceLast 4 weeklyData))
    by (unfold sliceLast; now rewrite length_map, skipn_map).
  rewrite Hmap, length_map.
  set (recent := sliceLast 4 weeklyData) in *.
  rewrite firstn_map, skipn_map, <- !average_mean.
  destruct (2 <=? List.length recent)%nat eqn:Hlen.
  - assert (H0 : 0 <= average (firstn (List.length recent / 2) recent)).
    { rewrite average_mean; apply mean_nonneg.
      apply Forall_forall; intros c Hc; apply in_map_iff in Hc as (w & <- & Hw).
      revert w Hw; apply Forall_forall, Forall_firstn_keep, Hrecent. }
    rewrite (Qgtb_zero H0).
    destruct (Qeq_bool (average (firstn (List.length recent / 2) recent)) 0);
      cbn [negb fst snd]; [reflexivity|].
    rewrite Qgtb_compare, Qgtb_compare_below.
    set (tv := (_ - _) / _ * 100).
    destruct (tv ?= 10); destruct (tv ?= -10); reflexivity.
  - apply Nat.leb_gt in Hlen.
    assert (Hhalf : (List.length recent / 2 = 0)%nat)
      by (apply Nat.div_small; exact Hlen).
    rewrite Hhalf; reflexivity.
Qed.

Lemma calculateMetrics_fields (analytics : Analytics) :
  trend (calculateMetrics analytics)
    = fst (computeTrend (tickets_per_week analytics))
  /\ trendValue (calculateMetrics analytics)
     = Qabs (snd (computeTrend (tickets_per_week analytics)))
  /\ mostCommonType (calculateMetrics analytics)
     = pickMostCommon (type_distribution analytics).
Proof.
  unfold calculateMetrics.
  destruct (computeTrend (tickets_per_week analytics)); repeat split.
Qed.

(** C4. For weekly buckets with non-negative counts the trend and its
    magnitude reported by [calculateMetrics] are those of the
    specification: the last four buckets (or fewer), split into the
    [floor(n/2)] earliest and the rest, the two means, ["stable"] with
    magnitude 0 when the first mean is 0, otherwise the percentage
    [(second - first) / first * 100], ["up"] above 10, ["down"] below -10,
    else ["stable"], reported in absolute value.  Counts [5,5,12,13] give
    ["up"] with 150, counts [0,0,3,4] give ["stable"] with 0. *)
Theorem calculateMetrics_trend (analytics : Analytics) :
  (Forall (fun w => (0 <= count w)%Z) (tickets_per_week analytics) ->
   (trend (calculateMetrics analytics),
    trendValue (calculateMetrics analytics))
   = Spec.trendOf (map count (tickets_per_week analytics)))
  /\ fst (computeTrend (map (mkWeek []) [5; 5; 12; 13]%Z)) = js "up"
  /\ snd (computeTrend (map (mkWeek []) [5; 5; 12; 13]%Z)) == 150
  /\ average (map (mkWeek []) [5; 5]%Z) == 5
  /\ average (map (mkWeek []) [12; 13]%Z) == 25 # 2
  /\ computeTrend (map (mkWeek []) [0; 0; 3; 4]%Z) = (js "stable", 0).
Proof.
  split; [|repeat split].
  intros H; rewrite (computeTrend_spec H).
  destruct (calculateMetrics_fields analytics) as (-> & -> & _); reflexivity.
Qed.

Lemma calculateMetrics_trend_witness :
  Forall (fun w => (0 <= count w)%Z) (tickets_per_week Samples.risingWeeks)
  /\ (trend (calculateMetrics Samples.risingWeeks),
      trendValue (calculateMetrics Samples.risingWeeks))
     = Spec.trendOf (map count (tickets_per_week Samples.risingWeeks)).
Proof.
  split.
  - repeat constructor; discriminate.
  - apply (proj1 (calculateMetrics_trend Samples.risingWeeks)).
    repeat constructor; discriminate.
Defined.

Lemma calculateMetrics_rising_weeks :
  trend (calculateMetrics Samples.risingWeeks) = js "up"
  /\ trendValue (calculateMetrics Samples.risingWeeks) == 150.
Proof. split; reflexivity. Qed.

(** ** The most common type *)

Section PickMostCommon.
Variable typeData : Distribution.

Let cnt (k : jsstring) : Z := countOf typeData k.
Let pick (a b : jsstring) : jsstring := if (cnt a >? cnt b)%Z then a else b.

(** The accumulator of the [reduce] either stays, every later key
    counting less, or ends on the last key whose count is the greatest. *)
Lemma reduce_pick (keys : list jsstring) (a : jsstring) :
  (fold_left pick keys a = a /\ Forall (fun k => (cnt k < cnt a)%Z) keys)
  \/ (exists pre post,
        keys = pre ++ fold_left pick keys a :: post
        /\ (cnt a <= cnt (fold_left pick keys a))%Z
        /\ Forall (fun k => (cnt k <= cnt (fold_left pick keys a))%Z) pre
        /\ Forall (fun k => (cnt k < cnt (fold_left pick keys a))%Z) post).
Proof.
  revert a; induction keys as [|b keys IH]; intros a; [left; now split|].
  change (fold_left pick (b :: keys) a) with (fold_left pick keys (pick a b)).
  assert (Hp : (pick a b = a /\ (cnt b < cnt a)%Z)
               \/ (pick a b = b /\ (cnt a <= cnt b)%Z)).
  { unfold pick; destruct (Z.gtb_spec (cnt a) (cnt b));
      [left | right]; split; auto; lia. }
  destruct Hp as [[-> Hab]|[-> Hab]].
  - destruct (IH a) as [[E F]|(pre & post & E & Ha & Fpre & Fpost)].
    + left; split; [exact E|]. constructor; [exact Hab | exact F].
    + right; exists (b :: pre), post.
      split; [cbn [app]; now f_equal|].
      split; [exact Ha|].
      split; [constructor; [lia | exact Fpre] | exact Fpost].
  - right; destruct (IH b) as [[E F]|(pre & post & E & Hb & Fpre & Fpost)].
    + exists [], keys; rewrite E.
      split; [reflexivity|]. split; [exact Hab|].
      split; [constructor | exact F].
    + exists (b :: pre), post.
      split; [cbn [app]; now f_equal|].
      split; [lia|].
      split; [constructor; [exact Hb | exact Fpre] | exact Fpost].
Qed.

Lemma getProp_in (k : jsstring) (v : Z) :
  getProp typeData k = Some v -> In k (map fst typeData).
Proof.
  induction typeData as [|[k' v'] d IH]; simpl; [discriminate|].
  destruct (streq k k') eqn:E; [|auto].
  apply streq_true in E; now left.
Qed.

Lemma countOf_nonneg (k : jsstring) :
  Forall (fun kv => (0 <= snd kv)%Z) typeData -> (0 <= countOf typeData k)%Z.
Proof.
  unfold countOf; induction 1 as [|[k' v'] d Hv Hd IH]; simpl; [lia|].
  destruct (streq k k'); [rewrite orZero_id; exact Hv | exact IH].
Qed.

Lemma countOf_pos_in (k : jsstring) :
  (0 < countOf typeData k)%Z -> In k (map fst typeData).
Proof.
  unfold countOf; destruct (getProp typeData k) as [v|] eqn:E; [|lia].
  intros _; eapply getProp_in; eauto.
Qed.

Lemma pickMostCommon_last_maximal :
  typeData <> [] ->
  Forall (fun kv => (0 <= snd kv)%Z) typeData ->
  exists pre post,
    map fst typeData = pre ++ pickMostCommon typeData :: post
    /\ Forall (fun k => (cnt k <= cnt (pickMostCommon typeData))%Z) pre
    /\ Forall (fun k => (cnt k < cnt (pickMostCommon typeData))%Z) post.
Proof.
  intros Hne Hpos; unfold pickMostCommon.
  change (fun a b => if (countOf typeData a >? countOf typeData b)%Z
                     then a else b) with pick.
  assert (Hk : exists k0 tl, map fst typeData = k0 :: tl).
  { destruct typeData as [|[k0 v0] d]; [congruence|].
    now exists k0, (map fst d). }
  destruct Hk as (k0 & tl & Hk).
  set (init := orElse (hd [] (map fst typeData)) (js "N/A")).
  destruct (reduce_pick (map fst typeData) init)
    as [[E F]|(pre & post & E & _ & Fpre & Fpost)];
    [exfalso | now exists pre, post].
  assert (Hall : forall k, In k (map fst typeData) -> (cnt k < cnt init)%Z)
    by (now apply Forall_forall).
  assert (Hk0 : In k0 (map fst typeData)) by (rewrite Hk; now left).
  assert (Hinit : init = k0 \/ init = js "N/A").
  { unfold init, orElse; rewrite Hk; cbn [hd]; destruct (truthy k0); auto. }
  pose proof (Hall k0 Hk0) as Hlt.
  destruct Hinit as [Hi|Hi].
  - rewrite Hi in Hlt; lia.
  - pose proof (countOf_nonneg k0 Hpos) as H0.
    assert (Hin : In init (map fst typeData))
      by (apply countOf_pos_in; unfold cnt in Hlt; lia).
    specialize (Hall init Hin); lia.
Qed.
End PickMostCommon.

(** C8, as the code has it.  [mostCommonType] is ["N/A"] for an empty
    distribution; for a non-empty one with non-negative counts it is a key
    whose count is the maximum, and among the keys with that count it is
    the one that comes last in the iteration order of the mapping. *)
Theorem mostCommonType_last_maximal (analytics : Analytics) :
  (type_distribution analytics = [] ->
   mostCommonType (calculateMetrics analytics) = js "N/A")
  /\ (type_distribution analytics <> [] ->
      Forall (fun kv => (0 <= snd kv)%Z) (type_distribution analytics) ->
      exists pre post,
        map fst (type_distribution analytics)
        = pre ++ mostCommonType (calculateMetrics analytics) :: post
        /\ Forall
             (fun k =>
                (countOf (type_distribution analytics) k
                 <= countOf (type_distribution analytics)
                      (mostCommonType (calculateMetrics analytics)))%Z) pre
        /\ Forall
             (fun k =>
                (countOf (type_distribution analytics) k
                 < countOf (type_distribution analytics)
                     (mostCommonType (calculateMetrics analytics)))%Z) post).
Proof.
  destruct (calculateMetrics_fields analytics) as (_ & _ & ->); split.
  - intros ->; reflexivity.
  - apply pickMostCommon_last_maximal.
Qed.

Lemma mostCommonType_last_maximal_witness :
  type_distribution Samples.mixedTypes <> []
  /\ Forall (fun kv => (0 <= snd kv)%Z) (type_distribution Samples.mixedTypes)
  /\ exists pre post,
       map fst (type_distribution Samples.mixedTypes)
       = pre ++ mostCommonType (calculateMetrics Samples.mixedTypes) :: post
       /\ Forall
            (fun k =>
               (countOf (type_distribution Samples.mixedTypes) k
                <= countOf (type_distribution Samples.mixedTypes)
                     (mostCommonType (calculateMetrics Samples.mixedTypes)))%Z)
            pre
       /\ Forall
            (fun k =>
               (countOf (type_distribution Samples.mixedTypes) k
                < countOf (type_distribution Samples.mixedTypes)
                    (mostCommonType (calculateMetrics Samples.mixedTypes)))%Z)
            post.
Proof.
  split; [discriminate|]. split; [repeat constructor; discriminate|].
  apply (proj2 (mostCommonType_last_maximal Samples.mixedTypes)).
  - discriminate.
  - repeat constructor; discriminate.
Defined.

Lemma mostCommonType_mixed_types :
  mostCommonType (calculateMetrics Samples.mixedTypes) = js "Task".
Proof. reflexivity. Qed.

(** C8 as stated fails: on a tie the key met last wins, not the key met
    first.  (And a mapping whose only key is the empty string, with a
    negative count, yields ["N/A"], which is not one of its keys.) *)
Lemma mostCommonType_tie_goes_to_last :
  type_distribution Samples.tiedTypes = [(js "Bug", 3%Z); (js "Task", 3%Z)]
  /\ mostCommonType (calculateMetrics Samples.tiedTypes) = js "Task"
  /\ Spec.mostCommonType (type_distribution Samples.tiedTypes) = js "Bug"
  /\ js "Task" <> js "Bug"
  /\ mostCommonType
       (calculateMetrics (mkAnalytics [] [] [([], (-1)%Z)] [] 0 0 0 0))
     = js "N/A".
Proof. repeat split; discriminate. Qed.

End AnalyticsFacts.

(* ================================================================== *)
(** * More on parseTicketInfo and the degraded card *)
(* ================================================================== *)

Module TicketCardFacts.
Import Js JsFacts Parser TicketCard.
Local Open Scope N_scope.

(** ** What every parsed record satisfies *)

Lemma forallb_trim (P : N -> bool) (s : jsstring) :
  forallb P s = true -> forallb P (trim s) = true.
Proof.
  destruct (trim_spec s) as (l & r & E & _); intros H.
  rewrite E, !forallb_app in H.
  apply andb_true_iff in H as [_ H]; now apply andb_true_iff in H as [H _].
Qed.

Lemma trim_idempotent (s : jsstring) : trim (trim s) = trim s.
Proof.
  destruct (trim_spec s) as (_ & _ & _ & _ & _ & H1 & H2).
  now apply trim_clean.
Qed.

Lemma matchBracketAt_valid (s g : jsstring) :
  matchBracketAt s = Some g -> Spec.validGroup g = true.
Proof.
  destruct s as [|c s]; [discriminate|]; unfold matchBracketAt.
  destruct (c =? 91); [|discriminate].
  pose proof (takeWhile_all notClosing s) as Hall.
  destruct (takeWhile notClosing s) as [|x g'] eqn:E; [discriminate|].
  destruct (dropWhile notClosing s); [discriminate|].
  intros H; injection H as <-; unfold Spec.validGroup; now rewrite Hall.
Qed.

Lemma bracketLoop_valid (s : jsstring) (skip : nat) :
  Forall (fun g => Spec.validGroup g = true) (bracketLoop skip s).
Proof.
  revert skip; induction s as [|c s IH]; intros skip; [constructor|].
  cbn [bracketLoop]; destruct skip; [|apply IH].
  destruct (matchBracketAt (c :: s)) as [g|] eqn:E; [|apply IH].
  constructor; [eapply matchBracketAt_valid; eauto | apply IH].
Qed.

Lemma mapAssignee_valid (g : jsstring) :
  Spec.validGroup g = true -> Spec.validGroup (mapAssignee g) = true.
Proof.
  intros H; unfold mapAssignee.
  destruct (streq g (js "Unassigned")); [reflexivity | exact H].
Qed.

Lemma parsed_assignee_nonempty (s : jsstring) (info : TicketInfo) :
  parseTicketInfo s = Some info -> truthy (assignee info) = true.
Proof.
  unfold parseTicketInfo.
  destruct (split (js ": ") s) as [|p0 [|rest more]]; try discriminate.
  pose proof (bracketLoop_valid rest 0) as Hv; fold (extractBrackets rest) in Hv.
  destruct (extractBrackets rest) as [|b0 [|b1 [|b2 bs]]]; try discriminate;
    intros H; injection H as <-; cbn [assignee];
    inversion Hv as [|? ? Hb0 _]; subst;
    apply mapAssignee_valid in Hb0; unfold Spec.validGroup in Hb0;
    now apply andb_true_iff in Hb0 as [Ht _].
Qed.

(** X1. In every record [parseTicketInfo] returns, the key and the summary
    carry no white space at their ends, and the assignee, the issue type
    and the priority are not empty and hold no closing bracket. *)
Theorem parseTicketInfo_fields (s : jsstring) (info : TicketInfo) :
  parseTicketInfo s = Some info ->
  trim (key info) = key info
  /\ trim (summary info) = summary info
  /\ Spec.validGroup (assignee info) = true
  /\ Spec.validGroup (issueType info) = true
  /\ Spec.validGroup (priority info) = true.
Proof.
  unfold parseTicketInfo.
  destruct (split (js ": ") s) as [|p0 [|rest more]]; try discriminate.
  pose proof (bracketLoop_valid rest 0) as Hv; fold (extractBrackets rest) in Hv.
  assert (Hsum : trim (extractSummary rest) = extractSummary rest).
  { unfold extractSummary; destruct (summaryMatch rest);
      apply trim_idempotent. }
  destruct (extractBrackets rest) as [|b0 [|b1 [|b2 bs]]]; try discriminate;
    intros H; injection H as <-; cbn [key summary assignee issueType priority];
    repeat match goal with
           | H : Forall _ (_ :: _) |- _ => inversion H; subst; clear H
           end;
    repeat split;
    auto using trim_idempotent, mapAssignee_valid.
  unfold orElse; destruct (truthy b2); auto.
Qed.

Lemma parseTicketInfo_fields_witness :
  parseTicketInfo (js " PROJ-4 :   Tidy up   [Unassigned] [Task] [Low] ")
  = Some (mkTicketInfo (js "PROJ-4") (js "Tidy up") (js "Non assigné")
            (js "Task") (js "Low"))
  /\ trim (js "PROJ-4") = js "PROJ-4"
  /\ trim (js "Tidy up") = js "Tidy up"
  /\ Spec.validGroup (js "Non assigné") = true
  /\ Spec.validGroup (js "Task") = true
  /\ Spec.validGroup (js "Low") = true.
Proof.
  split; [reflexivity|].
  exact (@parseTicketInfo_fields
           (js " PROJ-4 :   Tidy up   [Unassigned] [Task] [Low] ")
           (mkTicketInfo (js "PROJ-4") (js "Tidy up") (js "Non assigné")
              (js "Task") (js "Low")) eq_refl).
Defined.

(** ** Strings that cannot hold two groups *)

Lemma splitFrom_pieces (P : N -> bool) (sep s cur : jsstring) (skip : nat) :
  forallb P cur = true -> forallb P s = true ->
  Forall (fun p => forallb P p = true) (splitFrom sep skip cur s).
Proof.
  revert cur skip; induction s as [|c s IH]; intros cur skip Hcur Hs.
  - constructor; [now rewrite forallb_rev | constructor].
  - cbn [forallb] in Hs; apply andb_true_iff in Hs as [Hc Hs].
    cbn [splitFrom]; destruct skip; [|now apply IH].
    destruct (startsWith sep (c :: s)).
    + constructor; [now rewrite forallb_rev | now apply IH].
    + apply IH; [cbn [forallb]; now rewrite Hc, Hcur | exact Hs].
Qed.

Lemma bracketLoop_no_closing (s : jsstring) (skip : nat) :
  forallb notClosing s = true -> bracketLoop skip s = [].
Proof.
  revert skip; induction s as [|c s IH]; intros skip H; [reflexivity|].
  cbn [forallb] in H; apply andb_true_iff in H as [_ Hs].
  cbn [bracketLoop matchBracketAt]; destruct skip; [|now apply IH].
  destruct (c =? 91); [|now apply IH].
  assert (E : dropWhile notClosing s = []) by now apply dropWhile_nil.
  rewrite E; destruct (takeWhile notClosing s); now apply IH.
Qed.

Lemma bracketLoop_no_opening (s : jsstring) (skip : nat) :
  forallb Spec.notOpening s = true -> bracketLoop skip s = [].
Proof.
  revert skip; induction s as [|c s IH]; intros skip H; [reflexivity|].
  cbn [forallb] in H; apply andb_true_iff in H as [Hc Hs].
  cbn [bracketLoop matchBracketAt]; destruct skip; [|now apply IH].
  unfold Spec.notOpening in Hc; apply negb_true_iff in Hc; rewrite Hc.
  now apply IH.
Qed.

(** X2. A string without a closing bracket, or without an opening one, is
    never parsed: the result is null, whatever else it holds. *)
Theorem parseTicketInfo_needs_brackets (s : jsstring) :
  forallb notClosing s = true \/ forallb Spec.notOpening s = true ->
  parseTicketInfo s = None.
Proof.
  intros H; unfold parseTicketInfo.
  destruct (split (js ": ") s) as [|p0 [|rest more]] eqn:E; try reflexivity.
  assert (Hb : extractBrackets rest = []).
  { unfold extractBrackets; destruct H as [H|H].
    - apply bracketLoop_no_closing.
      pose proof (splitFrom_pieces notClosing (js ": ") s [] 0 eq_refl H)
        as Hp.
      fold (split (js ": ") s) in Hp; rewrite E in Hp.
      inversion Hp as [|? ? _ Hp']; inversion Hp'; assumption.
    - apply bracketLoop_no_opening.
      pose proof (splitFrom_pieces Spec.notOpening (js ": ") s [] 0 eq_refl H)
        as Hp.
      fold (split (js ": ") s) in Hp; rewrite E in Hp.
      inversion Hp as [|? ? _ Hp']; inversion Hp'; assumption. }
  now rewrite Hb.
Qed.

Lemma parseTicketInfo_needs_brackets_witness :
  (forallb notClosing (js "PROJ-5: no groups [at all") = true
   \/ forallb Spec.notOpening (js "PROJ-5: no groups [at all") = true)
  /\ parseTicketInfo (js "PROJ-5: no groups [at all") = None.
Proof.
  split; [left; reflexivity|].
  apply parseTicketInfo_needs_brackets; left; reflexivity.
Defined.

(** ** Encodings with two groups or more *)



(** ** The text after a second separator *)

Lemma afterFirst_separator (K R : jsstring) :
  includes (js ": ") K = false ->
  Spec.afterFirst (js ": ") (K ++ js ": " ++ R) = Some R.
Proof.
  change (js ": ") with [58; 32].
  induction K as [|c K IH]; intros H; [reflexivity|].
  apply includes_cons in H as [H1 H2].
  change ((c :: K) ++ [58; 32] ++ R) with (c :: (K ++ [58; 32] ++ R)).
  cbn [Spec.afterFirst].
  assert (E : startsWith [58; 32] (c :: (K ++ [58; 32] ++ R)) = false).
  { destruct K as [|b K']; cbn in H1 |- *; [apply andb_false_r | exact H1]. }
  rewrite E; exact (IH H2).
Qed.

(** X4. Of the text after the first [": "], [parseTicketInfo] reads only
    what precedes the next [": "]: whatever follows a second separator,
    bracketed groups included, has no effect on the result.  So when the
    text between the two separators has no opening bracket the ticket is
    not parsed, however many groups come after. *)
Theorem parseTicketInfo_second_separator (K R1 R2 : jsstring) :
  includes (js ": ") K = false ->
  includes (js ": ") R1 = false ->
  Spec.afterFirst (js ": ") (K ++ js ": " ++ R1 ++ js ": " ++ R2)
  = Some (R1 ++ js ": " ++ R2)
  /\ parseTicketInfo (K ++ js ": " ++ R1 ++ js ": " ++ R2)
     = parseTicketInfo (K ++ js ": " ++ R1)
  /\ (forallb Spec.notOpening R1 = true ->
      parseTicketInfo (K ++ js ": " ++ R1 ++ js ": " ++ R2) = None).
Proof.
  intros HK HR.
  assert (Hlong : split (js ": ") (K ++ js ": " ++ R1 ++ js ": " ++ R2)
                  = K :: R1 :: split (js ": ") R2).
  { unfold split.
    rewrite ParserFacts.split_first_separator by exact HK.
    now rewrite ParserFacts.split_first_separator by exact HR. }
  assert (Hshort : split (js ": ") (K ++ js ": " ++ R1) = [K; R1]).
  { unfold split.
    rewrite ParserFacts.split_first_separator by exact HK.
    now rewrite splitFrom_no_sep by exact HR. }
  split; [now apply afterFirst_separator|].
  split.
  - unfold parseTicketInfo; now rewrite Hlong, Hshort.
  - intros Hno; unfold parseTicketInfo; rewrite Hlong.
    unfold extractBrackets.
    rewrite <- (app_nil_r R1), ParserFacts.bracketLoop_pass by exact Hno.
    reflexivity.
Qed.

Lemma parseTicketInfo_second_separator_witness :
  includes (js ": ") (js "PROJ-1") = false
  /\ includes (js ": ") (js "Fix") = false
  /\ forallb Spec.notOpening (js "Fix") = true
  /\ parseTicketInfo (js "PROJ-1" ++ js ": " ++ js "Fix" ++ js ": "
                      ++ js "crash [Alice] [Bug] [High]") = None.
Proof.
  split; [reflexivity|]. split; [reflexivity|]. split; [reflexivity|].
  exact (proj2 (proj2 (@parseTicketInfo_second_separator (js "PROJ-1")
           (js "Fix") (js "crash [Alice] [Bug] [High]") eq_refl eq_refl))
           eq_refl).
Defined.

(** ** The degraded card *)

Lemma lazyUntilClose_plain (s taken g : jsstring) :
  forallb plainUnit taken = true ->
  lazyUntilClose taken s = Some g -> forallb plainUnit g = true.
Proof.
  revert taken; induction s as [|c s IH]; intros taken Ht; [discriminate|].
  cbn [lazyUntilClose].
  destruct (c =? 93) eqn:E93.
  - intros H; injection H as <-; now rewrite forallb_rev.
  - destruct (isLineTerminator c) eqn:Elt; [discriminate|].
    apply IH; cbn [forallb]; rewrite Ht.
    unfold plainUnit, notClosing; now rewrite E93, Elt.
Qed.

Lemma firstBracketGroup_plain (s g : jsstring) :
  firstBracketGroup s = Some g -> forallb plainUnit g = true.
Proof.
  induction s as [|c s IH]; [discriminate|]; cbn [firstBracketGroup].
  destruct (c =? 91); [|exact IH].
  destruct (lazyUntilClose [] s) as [g'|] eqn:E; [|exact IH].
  intros H; injection H as <-.
  eapply lazyUntilClose_plain; [|exact E]; reflexivity.
Qed.

(** X5. Whatever the ticket string, the degraded card has a key without a
    colon and without white space at its ends, and an assignee that is
    never empty and holds neither a closing bracket nor a line break; the
    key handed to the edit, transition and delete actions is trimmed
    too. *)
Theorem fallbackCard_invariants (ticket : jsstring) :
  forallb notColon (cardKey (fallbackCard ticket)) = true
  /\ trim (cardKey (fallbackCard ticket)) = cardKey (fallbackCard ticket)
  /\ cardAssignee (fallbackCard ticket) <> []
  /\ forallb plainUnit (cardAssignee (fallbackCard ticket)) = true
  /\ trim (ticketKeyOf ticket) = ticketKeyOf ticket.
Proof.
  assert (Hkey : trim (hd [] (split (js ":") ticket))
                 = trim (takeWhile notColon ticket))
    by apply ParserFacts.fallbackKey_eq.
  unfold fallbackCard; cbn [cardKey cardAssignee]; rewrite !Hkey.
  split; [apply forallb_trim, takeWhile_all|].
  split; [apply trim_idempotent|].
  set (rest := stripLeadingColon _).
  split; [|split].
  - unfold orElse.
    destruct (firstBracketGroup rest) as [[|c g]|]; cbn [truthy]; discriminate.
  - unfold orElse.
    destruct (firstBracketGroup rest) as [g|] eqn:E; [|reflexivity].
    destruct g as [|c g]; [reflexivity|]; cbn [truthy].
    eapply firstBracketGroup_plain; eauto.
  - unfold ticketKeyOf, parseTicketInfo.
    destruct (split (js ": ") ticket) as [|p0 [|r more]];
      try (rewrite Hkey; apply trim_idempotent).
    destruct (extractBrackets r) as [|b0 [|b1 [|b2 bs]]];
      first [rewrite Hkey; apply trim_idempotent
            | cbn [key]; apply trim_idempotent].
Qed.

Lemma skipn_past (A : Type) (l m : list A) :
  skipn (List.length l) (l ++ m) = m.
Proof. induction l; simpl; auto. Qed.

Lemma includes_needs (a b : N) (s : jsstring) :
  forallb (fun c => negb (c =? b)) s = true -> includes [a; b] s = false.
Proof.
  induction s as [|c s IH]; [reflexivity|].
  cbn [forallb]; intros H; apply andb_true_iff in H as [Hc Hs].
  cbn [includes startsWith]; rewrite (IH Hs), orb_false_r.
  destruct s as [|d s']; [apply andb_false_r|].
  cbn [forallb] in Hs; apply andb_true_iff in Hs as [Hd _].
  apply negb_true_iff in Hd; rewrite (N.eqb_sym b d), Hd.
  now rewrite andb_false_r.
Qed.

Lemma includes_needs_first (a b : N) (s : jsstring) :
  forallb (fun c => negb (c =? a)) s = true -> includes [a; b] s = false.
Proof.
  induction s as [|c s IH]; [reflexivity|].
  cbn [forallb]; intros H; apply andb_true_iff in H as [Hc Hs].
  cbn [includes startsWith]; rewrite (IH Hs), orb_false_r.
  apply negb_true_iff in Hc; now rewrite (N.eqb_sym a c), Hc.
Qed.

Lemma split_first_pair (a b : N) (K R cur : jsstring) :
  a <> b ->
  includes [a; b] K = false ->
  splitFrom [a; b] 0 cur (K ++ [a; b] ++ R)
  = (rev cur ++ K) :: splitFrom [a; b] 0 [] R.
Proof.
  intros Hab; revert cur; induction K as [|c K IH]; intros cur H.
  - cbn [app splitFrom startsWith List.length Nat.sub].
    rewrite !N.eqb_refl; cbn [andb]; rewrite app_nil_r.
    destruct R; reflexivity.
  - apply includes_cons in H as [H1 H2].
    change ((c :: K) ++ [a; b] ++ R) with (c :: (K ++ [a; b] ++ R)).
    cbn [splitFrom].
    assert (E : startsWith [a; b] (c :: (K ++ [a; b] ++ R)) = false).
    { destruct K as [|d K']; cbn in H1 |- *; [|exact H1].
      apply N.eqb_neq in Hab; rewrite (N.eqb_sym b a), Hab.
      apply andb_false_r. }
    rewrite E, IH by exact H2.
    cbn [rev]; now rewrite <- app_assoc.
Qed.

Lemma firstBracketGroup_pass (pre s : jsstring) :
  forallb Spec.notOpening pre = true ->
  firstBracketGroup (pre ++ s) = firstBracketGroup s.
Proof.
  induction pre as [|c pre IH]; [reflexivity|].
  cbn [forallb]; intros H; apply andb_true_iff in H as [Hc Hp].
  cbn [app firstBracketGroup].
  unfold Spec.notOpening in Hc; apply negb_true_iff in Hc; rewrite Hc; auto.
Qed.

Lemma lazyUntilClose_group (g taken s : jsstring) :
  forallb plainUnit g = true ->
  lazyUntilClose taken (g ++ 93 :: s) = Some (rev taken ++ g).
Proof.
  revert taken; induction g as [|c g IH]; intros taken H.
  - cbn; now rewrite app_nil_r.
  - cbn [forallb] in H; apply andb_true_iff in H as [Hc Hg].
    unfold plainUnit, notClosing in Hc; apply andb_true_iff in Hc as [H1 H2].
    apply negb_true_iff in H1, H2.
    cbn [app lazyUntilClose]; rewrite H1, H2, IH by exact Hg.
    cbn [rev]; now rewrite <- app_assoc.
Qed.

(** X6. An encoding ["K: S [A]"] with a single group is not parsed, and
    the card falls back to the key [K], the assignee [A] and the summary
    [S] with the space that followed the colon still in front of it. *)
Theorem ticketCard_single_group (K S A : jsstring) :
  forallb notColon K = true ->
  trim K = K ->
  Spec.wellFormed K S [A] = true ->
  forallb plainUnit A = true ->
  ticketCard (Spec.encode K S [A])
  = DegradedCard (mkFallback K (32 :: S) A).
Proof.
  intros Hcol Htrim Hwf HA.
  unfold Spec.wellFormed in Hwf.
  apply andb_true_iff in Hwf as [Hwf HR]; apply andb_true_iff in Hwf as [Hwf Hg].
  apply andb_true_iff in Hwf as [_ HS]; apply negb_true_iff in HR.
  assert (HSo : forallb Spec.notOpening S = true)
    by (unfold Spec.validSummary in HS;
        now repeat (apply andb_true_iff in HS as [HS _])).
  assert (HKs : includes (js ": ") K = false)
    by (apply includes_needs_first; exact Hcol).
  cbn [forallb] in Hg; apply andb_true_iff in Hg as [HgA _].
  assert (Hparse : parseTicketInfo (Spec.encode K S [A]) = None).
  { unfold parseTicketInfo.
    rewrite ParserFacts.split_encode by assumption.
    rewrite ParserFacts.extractBrackets_remainder; auto.
    cbn [forallb]; now rewrite HgA. }
  unfold ticketCard; rewrite Hparse; f_equal.
  unfold fallbackCard.
  assert (Hk : trim (hd [] (split (js ":") (Spec.encode K S [A]))) = K).
  { change (trim (hd [] (split (js ":") (Spec.encode K S [A]))))
      with (fallbackKey (Spec.encode K S [A])).
    rewrite ParserFacts.fallbackKey_eq.
    unfold Spec.encode; change (js ": ") with [58; 32]; cbn [app].
    rewrite (takeWhile_stop notColon K 58 _ Hcol eq_refl); exact Htrim. }
  rewrite Hk.
  assert (Hrest : stripLeadingColon
                    (skipn (List.length K + 1) (Spec.encode K S [A]))
                  = (32 :: S) ++ [32; 91] ++ (A ++ 93 :: [])).
  { unfold Spec.encode, Spec.remainder; cbn [flat_map].
    change (js ": ") with [58; 32]; change (js " [") with [32; 91].
    change (js "]") with [93].
    replace (List.length K + 1)%nat with (List.length (K ++ [58]))
      by (rewrite length_app; reflexivity).
    replace (K ++ [58; 32] ++ S ++ ([32; 91] ++ A ++ [93]) ++ [])
      with ((K ++ [58]) ++ 32 :: S ++ [32; 91] ++ A ++ [93])
      by (rewrite <- !app_assoc, app_nil_r; reflexivity).
    rewrite skipn_past; reflexivity. }
  rewrite Hrest; f_equal.
  - unfold split; change (js " [") with [32; 91].
    rewrite split_first_pair; [reflexivity | discriminate |].
    apply includes_needs; cbn [forallb]; exact HSo.
  - replace ((32 :: S) ++ [32; 91] ++ A ++ [93])
      with (((32 :: S) ++ [32]) ++ 91 :: (A ++ [93]))
      by (rewrite <- app_assoc; reflexivity).
    rewrite firstBracketGroup_pass
      by (rewrite forallb_app; cbn [forallb]; now rewrite HSo).
    cbn [firstBracketGroup N.eqb Pos.eqb].
    rewrite lazyUntilClose_group by exact HA.
    unfold orElse, Spec.validGroup in *.
    apply andb_true_iff in HgA as [Ht _]; cbn [rev app]; now rewrite Ht.
Qed.

Lemma ticketCard_single_group_witness :
  forallb notColon (js "PROJ-6") = true
  /\ trim (js "PROJ-6") = js "PROJ-6"
  /\ Spec.wellFormed (js "PROJ-6") (js "Only assignee") [js "Carol"] = true
  /\ forallb plainUnit (js "Carol") = true
  /\ ticketCard (js "PROJ-6: Only assignee [Carol]")
     = DegradedCard
         (mkFallback (js "PROJ-6") (js " Only assignee") (js "Carol")).
Proof.
  repeat (split; [reflexivity|]).
  exact (@ticketCard_single_group (js "PROJ-6") (js "Only assignee")
           (js "Carol") eq_refl eq_refl eq_refl eq_refl).
Defined.

End TicketCardFacts.

(* ================================================================== *)
(** * StatusBadge *)
(* ================================================================== *)

Module StatusBadgeFacts.
Import Js JsFacts StatusBadge.
Local Open Scope N_scope.

(** X7. The two switches of [StatusBadge] agree: whatever the status and
    whatever the host's [toUpperCase], the icon is the one that belongs to
    the class (clock for to-do, refresh for in-progress, check for done,
    tag for the rest). *)
Theorem statusBadge_icon_matches_class
  (toUpperCase : jsstring -> jsstring) (status : jsstring) :
  getStatusIcon toUpperCase status
  = classIcon (getStatusClass toUpperCase status)
  /\ In (getStatusClass toUpperCase status)
       [js "jira-status-todo"; js "jira-status-progress";
        js "jira-status-done"; js "jira-status-other"].
Proof.
  unfold getStatusIcon, getStatusClass.
  set (n := normalizedStatus toUpperCase status).
  destruct (streq n (js "TODO") || streq n (js "AFAIRE") || streq n (js "OPEN"));
    [split; [reflexivity | cbn; tauto]|].
  destruct (streq n (js "INPROGRESS") || streq n (js "ENCOURS")
            || streq n (js "PROGRESS"));
    [split; [reflexivity | cbn; tauto]|].
  destruct (streq n (js "DONE") || streq n (js "TERMINE")
            || streq n (js "TERMINEES") || streq n (js "CLOSED")
            || streq n (js "RESOLVED"));
    split; first [reflexivity | cbn; tauto].
Qed.

(** X8. The badge and the status order disagree on accented labels.  Of
    the sixteen labels ranked by [statusOrder], thirteen get the class of
    their rank; ["À faire"], ["Terminé"] and ["Terminées"] get
    ["jira-status-other"], because the accented letter is dropped from
    the normalized status (["FAIRE"], ["TERMIN"], ["TERMINES"]). *)
Theorem statusBadge_on_ranked_labels :
  Forall
    (fun entry =>
       classRank (getStatusClass Host.toUpperCase (fst entry))
       = if streq (fst entry) (js "À faire")
            || streq (fst entry) (js "Terminé")
            || streq (fst entry) (js "Terminées")
         then 999%Z else snd entry)
    JiraManagerPro.statusOrder
  /\ normalizedStatus Host.toUpperCase (js "À faire") = js "FAIRE"
  /\ normalizedStatus Host.toUpperCase (js "Terminé") = js "TERMIN"
  /\ normalizedStatus Host.toUpperCase (js "Terminées") = js "TERMINES"
  /\ normalizedStatus Host.toUpperCase (js "Terminée") = js "TERMINE".
Proof. split; [repeat constructor | repeat split]. Qed.

Lemma normalized_ascii_unit (c : N) :
  c < 128 ->
  filter isUpperLetter (Host.upperUnit c)
  = map (fun x => x - 32)
      (if (65 <=? c) && (c <=? 90) then [c + 32]
       else if (97 <=? c) && (c <=? 122) then [c] else []).
Proof.
  intros Hc; unfold Host.upperUnit, isUpperLetter.
  destruct (N.leb_spec 97 c); destruct (N.leb_spec c 122); cbn [andb].
  - assert (E1 : (65 <=? c) && (c <=? 90) = false).
    { apply andb_false_iff; right; apply N.leb_gt; lia. }
    rewrite E1; cbn [filter map].
    assert (E2 : (65 <=? c - 32) && (c - 32 <=? 90) = true).
    { apply andb_true_iff; split; apply N.leb_le; lia. }
    now rewrite E2.
  - assert (E3 : negb (c =? 223) = true /\ negb (c =? 255) = true
                 /\ negb (c =? 181) = true /\ (c <=? 254) = true
                 /\ (224 <=? c) = false /\ (c <=? 90) = false).
    { repeat split; try (apply negb_true_iff, N.eqb_neq; lia);
        first [apply N.leb_le; lia | apply N.leb_gt; lia]. }
    destruct E3 as (E223 & E255 & E181 & _ & E224 & E90).
    apply negb_true_iff in E223, E255, E181.
    rewrite E223, E255, E181, E224, E90, andb_false_r; cbn [andb filter].
    now rewrite E90, andb_false_r.
  - assert (E3 : (c =? 223) = false /\ (c =? 255) = false
                 /\ (c =? 181) = false /\ (224 <=? c) = false).
    { repeat split; first [apply N.eqb_neq; lia | apply N.leb_gt; lia]. }
    destruct E3 as (E223 & E255 & E181 & E224).
    rewrite E223, E255, E181, E224; cbn [andb filter].
    destruct ((65 <=? c) && (c <=? 90)) eqn:E; cbn [map]; [|reflexivity].
    f_equal; lia.
  - lia.
Qed.

Lemma normalized_ascii (s : jsstring) :
  forallb ascii s = true ->
  normalizedStatus Host.toUpperCase s = map (fun x => x - 32) (asciiLetters s).
Proof.
  unfold normalizedStatus, Host.toUpperCase, asciiLetters.
  induction s as [|c s IH]; [reflexivity|].
  cbn [forallb flat_map]; intros H; apply andb_true_iff in H as [Hc Hs].
  unfold ascii in Hc; apply N.ltb_lt in Hc.
  rewrite filter_app, map_app, IH by exact Hs.
  now rewrite normalized_ascii_unit.
Qed.

(** X9. On labels made of ASCII code units the badge looks at the letters
    only, whatever their case: two labels with the same letters, be they
    spaced, hyphenated, numbered or capitalized differently, get the same
    class and the same icon. *)
Theorem statusBadge_letters_only (s t : jsstring) :
  forallb ascii s = true -> forallb ascii t = true ->
  asciiLetters s = asciiLetters t ->
  getStatusClass Host.toUpperCase s = getStatusClass Host.toUpperCase t
  /\ getStatusIcon Host.toUpperCase s = getStatusIcon Host.toUpperCase t.
Proof.
  intros Hs Ht E; unfold getStatusClass, getStatusIcon.
  now rewrite (normalized_ascii s Hs), (normalized_ascii t Ht), E.
Qed.

Lemma statusBadge_letters_only_witness :
  forallb ascii (js "in-progress (2)") = true
  /\ forallb ascii (js "In Progress") = true
  /\ asciiLetters (js "in-progress (2)") = asciiLetters (js "In Progress")
  /\ getStatusClass Host.toUpperCase (js "in-progress (2)")
     = getStatusClass Host.toUpperCase (js "In Progress")
  /\ getStatusIcon Host.toUpperCase (js "in-progress (2)")
     = getStatusIcon Host.toUpperCase (js "In Progress").
Proof.
  do 3 (split; [reflexivity|]).
  exact (@statusBadge_letters_only (js "in-progress (2)") (js "In Progress")
           eq_refl eq_refl eq_refl).
Defined.

End StatusBadgeFacts.

(* ================================================================== *)
(** * Ticket lookup and action handlers *)
(* ================================================================== *)

Module BoardActionsFacts.
Import Js JsFacts Parser TicketCard JiraManagerPro BoardActions.
Local Open Scope N_scope.

(** X10. [findTicketStatus] returns the first status, in the order of the
    board's keys, one of whose ticket strings starts with the key, and
    null when no ticket string does.  A string starts with the key as
    soon as its own key extends it: the status of ["PROJ-10"] is returned
    for ["PROJ-1"] when it comes first. *)
Theorem findTicketStatus_first_match (tickets : Board) (ticketKey : jsstring) :
  match findTicketStatus tickets ticketKey with
  | Some status =>
    exists before ticketList after,
      tickets = before ++ (status, ticketList) :: after
      /\ existsb (startsWith ticketKey) ticketList = true
      /\ forallb (fun entry => negb (holds ticketKey entry)) before = true
  | None => forallb (fun entry => negb (holds ticketKey entry)) tickets = true
  end
  /\ (forall status suffix ticketList,
        findTicketStatus
          ((status, (ticketKey ++ suffix) :: ticketList) :: tickets) ticketKey
        = Some status).
Proof.
  split.
  - induction tickets as [|[status ticketList] entries IH]; [reflexivity|].
    cbn [findTicketStatus].
    destruct (existsb (startsWith ticketKey) ticketList) eqn:E.
    + exists [], ticketList, entries; now repeat split.
    + destruct (findTicketStatus entries ticketKey) as [st|].
      * destruct IH as (before & l & after & -> & Hl & Hb).
        exists ((status, ticketList) :: before), l, after.
        repeat split; auto.
        cbn [forallb]; unfold holds at 1; cbn [snd]; now rewrite E, Hb.
      * cbn [forallb]; unfold holds at 1; cbn [snd]; now rewrite E, IH.
  - intros status suffix ticketList; cbn [findTicketStatus existsb].
    now rewrite startsWith_app.
Qed.








(** A mutation handler reports success exactly when the call replied
    with [success], whatever becomes of the reload it awaits: when that
    reload fails the handler still returns true, with the board emptied
    and the reload's error shown.  A reply without [success] returns false
    and leaves board and error message as they were; a thrown error shows
    its message, or the handler's own text when it has none, and keeps the
    board.  In every case the action is no longer in flight. *)
Theorem handleMutation_outcomes (fallback : jsstring) (st : AppState)
  (reply : Reply) (reload : Settled) :
  actionLoading (fst (handleMutation fallback st reply reload)) = false
  /\ (snd (handleMutation fallback st reply reload) = true
      <-> reply = Replied true)
  /\ (forall message,
        reload = Rejected message ->
        handleMutation fallback st (Replied true) reload
        = (mkApp (mkBoardState [] false
                    (orElse message (js "Impossible de charger les tickets")))
             false, true))
  /\ handleMutation fallback st (Replied false) reload
     = (mkApp (board st) false, false)
  /\ (forall message,
        tickets (board (fst (handleMutation fallback st (Failed message)
                               reload)))
        = tickets (board st)
        /\ error (board (fst (handleMutation fallback st (Failed message)
                                reload)))
           = orElse message fallback).
Proof.
  split; [destruct reply as [[|]|]; reflexivity|].
  split; [destruct reply as [[|]|]; cbn; split; congruence|].
  split; [intros message ->; reflexivity|].
  split; [reflexivity|].
  intros message; split; reflexivity.
Qed.

Lemma handleMutation_outcomes_witness :
  handleTransitionTicket (mkApp Samples.loadedBoard true) (Replied true)
    (Rejected (js "HTTP error! status: 500"))
  = (mkApp (mkBoardState [] false (js "HTTP error! status: 500")) false, true).
Proof.
  exact (proj1 (proj2 (proj2 (handleMutation_outcomes
           (js "Erreur lors du changement de statut")
           (mkApp Samples.loadedBoard true) (Replied true)
           (Rejected (js "HTTP error! status: 500")))))
           (js "HTTP error! status: 500") eq_refl).
Defined.

End BoardActionsFacts.

(* ================================================================== *)
(** * The create and edit forms *)
(* ================================================================== *)

Module TicketFormsFacts.
Import Js JsFacts ApiService TransitionModal TicketForms.

Lemma truthy_and_trim (s : jsstring) :
  truthy s && truthy (trim s) = negb (blank s).
Proof.
  unfold blank; rewrite truthy_trim.
  destruct s; [reflexivity|]; reflexivity.
Qed.

Lemma updateTicket_field (ticketKey : jsstring) (data : FormData)
  (k : FormKey) :
  field (keyName k) (body (updateTicket ticketKey data))
  = match k with
    | KSummary =>
      if blank (summary data) then None else Some (trim (summary data))
    | KDescription =>
      if blank (description data) then None
      else Some (trim (description data))
    | KPriority =>
      if truthy (priority data) then Some (priority data) else None
    | KIssueType =>
      if truthy (issueType data) then Some (issueType data) else None
    | KAssignee =>
      if truthy (assignee data) then Some (assignee data) else None
    | KStatus | KCreated | KUpdated => None
    end.
Proof.
  unfold updateTicket; cbn [body].
  rewrite !truthy_and_trim.
  destruct (blank (summary data)); destruct (blank (description data));
    destruct (priority data) as [|p ps]; destruct (issueType data) as [|t ts];
    destruct (assignee data) as [|a as']; cbn [negb truthy app];
    destruct k; reflexivity.
Qed.

(** X12. The body of [updateTicket] holds a field exactly when the form
    has something in it: the summary and the description when they are
    not blank, trimmed; the priority, the type and the assignee when they
    are not empty, as they are.  The status and the dates are never sent,
    and a field the user emptied is left out of the request rather than
    sent empty. *)
Theorem updateTicket_body (ticketKey : jsstring) (data : FormData) :
  let sent := body (updateTicket ticketKey data) in
  field (js "summary") sent
    = (if blank (summary data) then None else Some (trim (summary data)))
  /\ field (js "description") sent
     = (if blank (description data) then None
        else Some (trim (description data)))
  /\ field (js "priority") sent
     = (if truthy (priority data) then Some (priority data) else None)
  /\ field (js "issueType") sent
     = (if truthy (issueType data) then Some (issueType data) else None)
  /\ field (js "assignee") sent
     = (if truthy (assignee data) then Some (assignee data) else None)
  /\ field (js "status") sent = None
  /\ field (js "created") sent = None
  /\ field (js "updated") sent = None
  /\ Forall (fun entry => snd entry <> []) sent.
Proof.
  cbv zeta.
  do 8 (split;
        [first [ exact (updateTicket_field ticketKey data KSummary)
               | exact (updateTicket_field ticketKey data KDescription)
               | exact (updateTicket_field ticketKey data KPriority)
               | exact (updateTicket_field ticketKey data KIssueType)
               | exact (updateTicket_field ticketKey data KAssignee)
               | exact (updateTicket_field ticketKey data KStatus)
               | exact (updateTicket_field ticketKey data KCreated)
               | exact (updateTicket_field ticketKey data KUpdated) ]|]).
  unfold updateTicket; cbn [body].
  rewrite !truthy_and_trim.
  assert (Hs : blank (summary data) = false -> trim (summary data) <> []).
  { intros E H; apply trim_nil_iff in H; unfold blank in E; congruence. }
  assert (Hd : blank (description data) = false ->
               trim (description data) <> []).
  { intros E H; apply trim_nil_iff in H; unfold blank in E; congruence. }
  destruct (blank (summary data)); destruct (blank (description data));
    destruct (priority data) as [|p ps]; destruct (issueType data) as [|t ts];
    destruct (assignee data) as [|a as']; cbn [negb truthy app];
    repeat (constructor; cbn [snd]; try discriminate; auto).
Qed.

(** X13. With the details loaded, the edit form sends nothing and shows
    ["Aucune modification détectée"] exactly when the summary, the
    description, the priority, the type and the assignee all equal the
    loaded ones; the status and the dates play no part.  Otherwise it
    sends [updateTicket] with the form.  While no details have been loaded
    (the load failed, say) every form counts as changed: the untouched
    empty form sends a [PUT] whose body is the empty object. *)
Theorem editSubmit_needs_a_change (ticketKey : jsstring)
  (formData original : FormData) :
  (Forall (fun k => getKey k formData = getKey k original) editableKeys
   -> editSubmit ticketKey formData (Some original)
      = (Some (js "Aucune modification détectée"), None))
  /\ (~ Forall (fun k => getKey k formData = getKey k original) editableKeys
      -> editSubmit ticketKey formData (Some original)
         = (None, Some (updateTicket ticketKey formData)))
  /\ editSubmit ticketKey formData None
     = (None, Some (updateTicket ticketKey formData))
  /\ editSubmit ticketKey emptyForm None
     = (None, Some (mkRequest (js "/tickets/" ++ ticketKey) (js "PUT") [])).
Proof.
  rewrite <- and_assoc; split; [|split; reflexivity].
  unfold editSubmit, hasChanges, formKeys, editableKeys.
  cbn [existsb readOnlyKey getKey orb].
  destruct (streq (summary formData) (summary original)) eqn:E1;
    destruct (streq (description formData) (description original)) eqn:E2;
    destruct (streq (priority formData) (priority original)) eqn:E3;
    destruct (streq (issueType formData) (issueType original)) eqn:E4;
    destruct (streq (assignee formData) (assignee original)) eqn:E5;
    cbn [negb orb];
    repeat match goal with
           | H : streq _ _ = true |- _ => apply streq_true in H
           | H : streq _ _ = false |- _ => apply streq_false in H
           end;
    split; intros H; try reflexivity;
    try (exfalso; apply H; repeat constructor; assumption);
    exfalso;
    repeat match goal with
           | H : Forall _ (_ :: _) |- _ => inversion H; subst; clear H
           end;
    cbn [getKey] in *; congruence.
Qed.

Lemma editSubmit_needs_a_change_witness :
  Forall
    (fun k =>
       getKey k (mkForm (js "Fix crash") [] (js "High") (js "Bug") (js "Alice")
                   (js "Done") (js "2025-02-01") (js "2025-02-03"))
       = getKey k (mkForm (js "Fix crash") [] (js "High") (js "Bug")
                     (js "Alice") (js "En cours") (js "2025-01-01") []))
    editableKeys
  /\ editSubmit (js "PROJ-1")
       (mkForm (js "Fix crash") [] (js "High") (js "Bug") (js "Alice")
          (js "Done") (js "2025-02-01") (js "2025-02-03"))
       (Some (mkForm (js "Fix crash") [] (js "High") (js "Bug") (js "Alice")
                (js "En cours") (js "2025-01-01") []))
     = (Some (js "Aucune modification détectée"), None).
Proof.
  assert (H : Forall
    (fun k =>
       getKey k (mkForm (js "Fix crash") [] (js "High") (js "Bug") (js "Alice")
                   (js "Done") (js "2025-02-01") (js "2025-02-03"))
       = getKey k (mkForm (js "Fix crash") [] (js "High") (js "Bug")
                     (js "Alice") (js "En cours") (js "2025-01-01") []))
    editableKeys) by (repeat constructor).
  split; [exact H|].
  exact (proj1 (editSubmit_needs_a_change (js "PROJ-1")
                  (mkForm (js "Fix crash") [] (js "High") (js "Bug")
                     (js "Alice") (js "Done") (js "2025-02-01")
                     (js "2025-02-03"))
                  (mkForm (js "Fix crash") [] (js "High") (js "Bug")
                     (js "Alice") (js "En cours") (js "2025-01-01") [])) H).
Defined.

(** X14. Emptying a field is seen as a change but is not transmitted.
    When the user empties the summary, the description, the priority, the
    type or the assignee of a loaded ticket that had one, the form sends a
    request, and that request has no such field: the body is the one the
    unchanged ticket would give, less that field. *)
Theorem editSubmit_emptied_field (ticketKey : jsstring) (original : FormData)
  (k : FormKey) :
  readOnlyKey k = false ->
  getKey k original <> [] ->
  editSubmit ticketKey (setKey k [] original) (Some original)
  = (None, Some (updateTicket ticketKey (setKey k [] original)))
  /\ field (keyName k) (body (updateTicket ticketKey (setKey k [] original)))
     = None
  /\ (forall k', k' <> k ->
        field (keyName k')
          (body (updateTicket ticketKey (setKey k [] original)))
        = field (keyName k') (body (updateTicket ticketKey original))).
Proof.
  intros Hro Hne.
  assert (Hchg : hasChanges (setKey k [] original) (Some original) = true).
  { unfold hasChanges; apply existsb_exists; exists k; split.
    - destruct k; cbn; tauto.
    - rewrite Hro; apply negb_true_iff, streq_false.
      destruct k; cbn [getKey setKey summary description priority issueType
                         assignee] in *; try discriminate; congruence. }
  unfold editSubmit; rewrite Hchg; split; [reflexivity|].
  split.
  - rewrite updateTicket_field.
    destruct k; try discriminate; reflexivity.
  - intros k' Hk'; rewrite !updateTicket_field.
    destruct k; try discriminate; destruct k'; try congruence; reflexivity.
Qed.

Lemma editSubmit_emptied_field_witness :
  readOnlyKey KAssignee = false
  /\ getKey KAssignee
       (mkForm (js "Fix crash") [] (js "High") (js "Bug") (js "Alice")
          (js "Done") [] []) <> []
  /\ body (updateTicket (js "PROJ-1")
             (setKey KAssignee []
                (mkForm (js "Fix crash") [] (js "High") (js "Bug")
                   (js "Alice") (js "Done") [] [])))
     = [(js "summary", js "Fix crash"); (js "priority", js "High");
        (js "issueType", js "Bug")]
  /\ field (keyName KAssignee)
       (body (updateTicket (js "PROJ-1")
                (setKey KAssignee []
                   (mkForm (js "Fix crash") [] (js "High") (js "Bug")
                      (js "Alice") (js "Done") [] []))))
     = None.
Proof.
  split; [reflexivity|]. split; [discriminate|]. split; [reflexivity|].
  refine (proj1 (proj2 (@editSubmit_emptied_field (js "PROJ-1")
            (mkForm (js "Fix crash") [] (js "High") (js "Bug") (js "Alice")
               (js "Done") [] []) KAssignee eq_refl _))).
  discriminate.
Defined.

(** X15. The create form sends a request exactly when neither the summary
    nor the type is blank.  When it does, the body holds the five fields
    as typed, the summary untrimmed; when it does not, the summary error
    is set exactly when the summary is blank and the type error exactly
    when the type is blank. *)
Theorem createSubmit_validation (formData : FormData) :
  (blank (summary formData) = false -> blank (issueType formData) = false ->
   createSubmit formData
   = (None,
      Some (mkRequest (js "/tickets") (js "POST")
              [ (js "summary", summary formData);
                (js "description", description formData);
                (js "issueType", issueType formData);
                (js "priority", priority formData);
                (js "assignee", assignee formData) ])))
  /\ (blank (summary formData) || blank (issueType formData) = true ->
      exists errors,
        createSubmit formData = (Some errors, None)
        /\ truthy (summaryError errors) = blank (summary formData)
        /\ truthy (issueTypeError errors) = blank (issueType formData)).
Proof.
  unfold createSubmit, blank; rewrite !truthy_trim, !negb_involutive.
  destruct (forallb isWhiteSpace (summary formData));
    destruct (forallb isWhiteSpace (issueType formData)); cbn;
    split; intros; try discriminate; try reflexivity;
    eexists; repeat split.
Qed.

Lemma createSubmit_validation_witness :
  blank (summary (mkForm (js " Fix crash ") [] (js "Medium") (js "Task") []
                    [] [] [])) = false
  /\ blank (issueType (mkForm (js " Fix crash ") [] (js "Medium") (js "Task")
                         [] [] [] [])) = false
  /\ createSubmit (mkForm (js " Fix crash ") [] (js "Medium") (js "Task") []
                     [] [] [])
     = (None,
        Some (mkRequest (js "/tickets") (js "POST")
                [ (js "summary", js " Fix crash ");
                  (js "description", []);
                  (js "issueType", js "Task");
                  (js "priority", js "Medium");
                  (js "assignee", []) ])).
Proof.
  do 2 (split; [reflexivity|]).
  exact (proj1 (createSubmit_validation
                  (mkForm (js " Fix crash ") [] (js "Medium") (js "Task") []
                     [] [] [])) eq_refl eq_refl).
Defined.

End TicketFormsFacts.

(* ================================================================== *)
(** * getTickets: the query *)
(* ================================================================== *)

Module TicketQueryFacts.
Import Js JsFacts TransitionModal TicketQuery.
Local Open Scope N_scope.




(** ** The serializer *)

Lemma unreserved_hexDigit (n : N) : n < 16 -> unreserved (hexDigit n) = true.
Proof.
  intros Hn; unfold hexDigit, unreserved.
  destruct (N.ltb_spec n 10).
  - assert (E : (48 <=? 48 + n) && (48 + n <=? 57) = true)
      by (apply andb_true_iff; split; apply N.leb_le; lia).
    now rewrite E.
  - assert (E : (65 <=? 55 + n) && (55 + n <=? 90) = true)
      by (apply andb_true_iff; split; apply N.leb_le; lia).
    rewrite E; now rewrite orb_true_r.
Qed.

Lemma encodeByte_safe (b : N) :
  b < 256 -> forallb safeUnit (encodeByte b) = true.
Proof.
  intros Hb; unfold encodeByte.
  destruct (unreserved b) eqn:E; [cbn; unfold safeUnit; now rewrite E|].
  destruct (b =? 32); [reflexivity|].
  cbn [forallb]; unfold safeUnit at 2 3.
  rewrite !unreserved_hexDigit; [reflexivity | |].
  - apply N.mod_lt; discriminate.
  - apply N.Div0.div_lt_upper_bound; lia.
Qed.

Lemma utf8_bytes (cp : N) :
  cp < 1114112 -> Forall (fun b => b < 256) (utf8 cp).
Proof.
  intros Hcp; unfold utf8.
  assert (M : forall x, x mod 64 < 64) by (intros; apply N.mod_lt; discriminate).
  destruct (N.ltb_spec cp 128); [repeat constructor; lia|].
  destruct (N.ltb_spec cp 2048).
  { assert (cp / 64 < 32) by (apply N.Div0.div_lt_upper_bound; lia).
    pose proof (M cp); repeat constructor; lia. }
  destruct (N.ltb_spec cp 65536).
  { assert (cp / 4096 < 16) by (apply N.Div0.div_lt_upper_bound; lia).
    pose proof (M cp); pose proof (M (cp / 64)); repeat constructor; lia. }
  assert (cp / 262144 < 5) by (apply N.Div0.div_lt_upper_bound; lia).
  pose proof (M cp); pose proof (M (cp / 64)); pose proof (M (cp / 4096)).
  repeat constructor; lia.
Qed.

Lemma codePoints_bound (s : jsstring) :
  codeUnits s = true -> Forall (fun cp => cp < 1114112) (codePoints s).
Proof.
  unfold codeUnits.
  assert (H : forall n s, (List.length s <= n)%nat ->
              forallb (fun c => c <? 65536) s = true ->
              Forall (fun cp => cp < 1114112) (codePoints s)).
  { clear s; induction n as [|n IH]; intros s Hn Hs.
    - destruct s; [constructor | cbn in Hn; lia].
    - destruct s as [|c s]; [constructor|].
      cbn [forallb] in Hs; apply andb_true_iff in Hs as [Hc Hs].
      apply N.ltb_lt in Hc; cbn [List.length] in Hn.
      assert (Htl : Forall (fun cp => cp < 1114112) (codePoints s))
        by (apply IH; [lia | exact Hs]).
      cbn [codePoints].
      destruct ((55296 <=? c) && (c <=? 56319)) eqn:Ehi.
      + apply andb_true_iff in Ehi as [E1 E2].
        apply N.leb_le in E1, E2.
        destruct s as [|d s']; [repeat constructor; lia|].
        destruct ((56320 <=? d) && (d <=? 57343)) eqn:Elo.
        * apply andb_true_iff in Elo as [E3 E4].
          apply N.leb_le in E3, E4.
          cbn [forallb] in Hs; apply andb_true_iff in Hs as [_ Hs'].
          constructor; [lia|].
          apply IH; [cbn [List.length] in Hn; lia | exact Hs'].
        * constructor; [lia | exact Htl].
      + destruct ((56320 <=? c) && (c <=? 57343));
          constructor; first [lia | exact Htl]. }
  intros Hs; eapply H; eauto.
Qed.

Lemma urlencode_safe (s : jsstring) :
  codeUnits s = true -> forallb safeUnit (urlencode s) = true.
Proof.
  intros Hs; unfold urlencode.
  assert (Hb : Forall (fun b => b < 256) (flat_map utf8 (codePoints s))).
  { pose proof (codePoints_bound s Hs) as Hcp.
    induction Hcp as [|cp l Hcp _ IH]; [constructor|].
    cbn [flat_map]; apply Forall_app; split; [now apply utf8_bytes | exact IH]. }
  induction Hb as [|b l Hb _ IH]; [reflexivity|].
  cbn [flat_map]; rewrite forallb_app, IH, andb_true_r.
  now apply encodeByte_safe.
Qed.

Lemma safe_not (c0 : N) (s : jsstring) :
  safeUnit c0 = false ->
  forallb safeUnit s = true -> forallb (fun x => negb (x =? c0)) s = true.
Proof.
  intros H0; induction s as [|c s IH]; [reflexivity|].
  cbn [forallb]; intros H; apply andb_true_iff in H as [Hc Hs].
  rewrite IH by exact Hs; rewrite andb_true_r.
  apply negb_true_iff, N.eqb_neq; intros ->; congruence.
Qed.

Lemma splitFrom_unit_last (c0 : N) (cur p : jsstring) :
  forallb (fun x => negb (x =? c0)) p = true ->
  splitFrom [c0] 0 cur p = [rev cur ++ p].
Proof.
  revert cur; induction p as [|c p IH]; intros cur H.
  - cbn; now rewrite app_nil_r.
  - cbn [forallb] in H; apply andb_true_iff in H as [Hc Hp].
    apply negb_true_iff in Hc.
    cbn [splitFrom startsWith]; rewrite (N.eqb_sym c0 c), Hc; cbn [andb].
    rewrite IH by exact Hp; cbn [rev]; now rewrite <- app_assoc.
Qed.

Lemma splitFrom_unit_piece (c0 : N) (cur p s : jsstring) :
  forallb (fun x => negb (x =? c0)) p = true ->
  splitFrom [c0] 0 cur (p ++ c0 :: s)
  = (rev cur ++ p) :: splitFrom [c0] 0 [] s.
Proof.
  revert cur; induction p as [|c p IH]; intros cur H.
  - cbn [app splitFrom startsWith]; rewrite N.eqb_refl; cbn.
    now rewrite app_nil_r.
  - cbn [forallb] in H; apply andb_true_iff in H as [Hc Hp].
    apply negb_true_iff in Hc.
    cbn [app splitFrom startsWith]; rewrite (N.eqb_sym c0 c), Hc; cbn [andb].
    rewrite IH by exact Hp; cbn [rev]; now rewrite <- app_assoc.
Qed.

Lemma split_join (c0 : N) (p : jsstring) (ps : list jsstring) :
  Forall (fun q => forallb (fun x => negb (x =? c0)) q = true) (p :: ps) ->
  split [c0] (join [c0] (p :: ps)) = p :: ps.
Proof.
  unfold split; revert p; induction ps as [|q ps IH]; intros p H.
  - inversion H; subst; cbn [join]; now rewrite splitFrom_unit_last.
  - inversion H as [|? ? Hp Hq]; subst.
    change (join [c0] (p :: q :: ps)) with (p ++ c0 :: join [c0] (q :: ps)).
    rewrite splitFrom_unit_piece by exact Hp.
    now rewrite IH.
Qed.

(** X17. The query string cannot be broken by what a filter holds.  For
    parameters made of proper code units, splitting the string at [&]
    gives back one piece per parameter, and splitting a piece at [=] gives
    the encoded name and the encoded value: a search text with [&], [=],
    [#] or spaces never adds, ends or renames a parameter.  What is
    written holds only ASCII letters and digits and [* - . _ + %]. *)
Theorem queryString_keeps_parameters (params : list (jsstring * jsstring)) :
  params <> [] ->
  Forall (fun e => codeUnits (fst e) = true /\ codeUnits (snd e) = true)
    params ->
  split (js "&") (queryString params) = map encodePair params
  /\ Forall (fun e => split (js "=") (encodePair e)
                      = [urlencode (fst e); urlencode (snd e)]) params
  /\ Forall (fun e => forallb safeUnit (urlencode (fst e)) = true
                      /\ forallb safeUnit (urlencode (snd e)) = true) params.
Proof.
  intros Hne Hw.
  assert (Hsafe : Forall
            (fun e => forallb safeUnit (urlencode (fst e)) = true
                      /\ forallb safeUnit (urlencode (snd e)) = true) params).
  { eapply Forall_impl; [|exact Hw].
    intros e [H1 H2]; split; now apply urlencode_safe. }
  split; [|split; [|exact Hsafe]].
  - destruct params as [|e es]; [congruence|].
    unfold queryString; change (js "&") with [38]; cbn [map].
    apply split_join.
    change (encodePair e :: map encodePair es) with (map encodePair (e :: es)).
    apply Forall_map; eapply Forall_impl; [|exact Hsafe].
    intros x [H1 H2]; unfold encodePair; change (js "=") with [61].
    rewrite !forallb_app; cbn [forallb].
    rewrite (@safe_not 38 _ eq_refl H1), (@safe_not 38 _ eq_refl H2).
    reflexivity.
  - eapply Forall_impl; [|exact Hsafe].
    intros x [H1 H2]; unfold encodePair, split; change (js "=") with [61].
    cbn [app].
    rewrite splitFrom_unit_piece by (apply (@safe_not 61 _ eq_refl H1)).
    rewrite splitFrom_unit_last by (apply (@safe_not 61 _ eq_refl H2)).
    reflexivity.
Qed.

Lemma queryString_keeps_parameters_witness :
  getTicketsParams
    (mkFilters (js "a&b=c d é") (js "all") (js "Bug") [] (js "High"))
  = [(js "search", js "a&b=c d é"); (js "type", js "Bug")]
  /\ queryString [(js "search", js "a&b=c d é"); (js "type", js "Bug")]
     = js "search=a%26b%3Dc+d+%C3%A9&type=Bug"
  /\ split (js "&")
       (queryString [(js "search", js "a&b=c d é"); (js "type", js "Bug")])
     = map encodePair [(js "search", js "a&b=c d é"); (js "type", js "Bug")].
Proof.
  do 2 (split; [reflexivity|]).
  refine (proj1 (@queryString_keeps_parameters
                   [(js "search", js "a&b=c d é"); (js "type", js "Bug")]
                   _ _)).
  - discriminate.
  - repeat constructor.
Defined.

End TicketQueryFacts.

(* ================================================================== *)
(** * The analytics dashboard: metrics, insights and charts *)
(* ================================================================== *)

Module ChartsFacts.
Import Js JsFacts AnalyticsDashboard AnalyticsFacts Charts.
Local Open Scope Q_scope.

(** ** The trend *)

Lemma Qgtb_true (x y : Q) : Qgtb x y = true <-> y < x.
Proof.
  rewrite Qgtb_compare; split.
  - destruct (x ?= y) eqn:C; try discriminate; intros _; now apply Qgt_alt.
  - intros H; apply Qgt_alt in H; now rewrite H.
Qed.

Lemma Qgtb_false (x y : Q) : Qgtb x y = false <-> x <= y.
Proof.
  unfold Qgtb; rewrite negb_false_iff; apply Qle_bool_iff.
Qed.

Lemma computeTrend_cases (weeklyData : list WeeklyBucket) :
  (fst (computeTrend weeklyData) = js "up"
   /\ 10 < snd (computeTrend weeklyData))
  \/ (fst (computeTrend weeklyData) = js "down"
      /\ snd (computeTrend weeklyData) < -10)
  \/ (fst (computeTrend weeklyData) = js "stable"
      /\ -10 <= snd (computeTrend weeklyData)
      /\ snd (computeTrend weeklyData) <= 10).
Proof.
  unfold computeTrend.
  destruct (2 <=? List.length (sliceLast 4 weeklyData))%nat;
    [|right; right; cbn; repeat split; discriminate].
  destruct (Qgtb (average _) 0);
    [|right; right; cbn; repeat split; discriminate].
  set (tv := (_ - _) / _ * 100).
  destruct (Qgtb tv 10) eqn:E1; cbn [fst snd].
  - left; split; [reflexivity | now apply Qgtb_true].
  - destruct (Qgtb (-10) tv) eqn:E2.
    + right; left; split; [reflexivity | now apply Qgtb_true].
    + right; right; split; [reflexivity|].
      split; [now apply Qgtb_false | now apply Qgtb_false].
Qed.

(** X18. Whatever the analytics received, the trend is ["up"], ["down"]
    or ["stable"], and the magnitude shown with it is never negative: it is
    above 10 for ["up"] and ["down"], so the badge of the card is drawn,
    and at most 10 for ["stable"]. *)
Theorem calculateMetrics_trend_magnitude (analytics : Analytics) :
  ((trend (calculateMetrics analytics) = js "up"
    \/ trend (calculateMetrics analytics) = js "down")
   /\ 10 < trendValue (calculateMetrics analytics)
   /\ showsTrendBadge (trend (calculateMetrics analytics))
        (trendValue (calculateMetrics analytics)) = true)
  \/ (trend (calculateMetrics analytics) = js "stable"
      /\ 0 <= trendValue (calculateMetrics analytics)
      /\ trendValue (calculateMetrics analytics) <= 10).
Proof.
  destruct (calculateMetrics_fields analytics) as (-> & -> & _).
  destruct (computeTrend_cases (tickets_per_week analytics))
    as [[E H]|[[E H]|[E [H1 H2]]]]; rewrite E.
  - left; split; [now left|].
    assert (Ha : 10 < Qabs (snd (computeTrend (tickets_per_week analytics)))).
    { rewrite Qabs_pos; [exact H | lra]. }
    split; [exact Ha|].
    unfold showsTrendBadge; cbn [truthy andb]; apply Qgtb_true; lra.
  - left; split; [now right|].
    assert (Ha : 10 < Qabs (snd (computeTrend (tickets_per_week analytics)))).
    { rewrite Qabs_neg; lra. }
    split; [exact Ha|].
    unfold showsTrendBadge; cbn [truthy andb]; apply Qgtb_true; lra.
  - right; split; [reflexivity|]; split; [apply Qabs_nonneg|].
    apply Qabs_Qle_condition; split; assumption.
Qed.

Lemma sliceLast_app (A : Type) (n : nat) (older recent : list A) :
  List.length recent = n -> sliceLast n (older ++ recent) = recent.
Proof.
  intros <-; unfold sliceLast; rewrite length_app.
  replace (List.length older + List.length recent - List.length recent)%nat
    with (List.length older) by lia.
  induction older; simpl; auto.
Qed.

(** X19. The trend looks at the last four weeks only: weeks older than
    those, however many and however busy, change neither the trend nor
    its magnitude. *)
Theorem computeTrend_last_four (older recent : list WeeklyBucket) :
  List.length recent = 4%nat ->
  computeTrend (older ++ recent) = computeTrend recent.
Proof.
  intros H; unfold computeTrend.
  assert (E : sliceLast 4 recent = recent)
    by exact (@sliceLast_app _ 4%nat [] recent H).
  now rewrite (@sliceLast_app _ 4%nat older recent H), E.
Qed.

Lemma computeTrend_last_four_witness :
  List.length (tickets_per_week Samples.risingWeeks) = 4%nat
  /\ computeTrend
       ([mkWeek (js "2024-W51") 400; mkWeek (js "2024-W52") 0]
        ++ tickets_per_week Samples.risingWeeks)
     = computeTrend (tickets_per_week Samples.risingWeeks).
Proof.
  split; [reflexivity|].
  exact (@computeTrend_last_four
           [mkWeek (js "2024-W51") 400; mkWeek (js "2024-W52") 0]
           (tickets_per_week Samples.risingWeeks) eq_refl).
Defined.

(** ** Totals *)



(** ** Insights *)

(** X21. With no resolved ticket in the period (an average resolution time
    of zero) the resolution insight is rated ["excellent"], while the note
    that no ticket was resolved is appended to its text; with any other
    average the note is empty. *)
Theorem resolution_insight_at_zero (analytics : Analytics) :
  (avg_resolution_time analytics == 0 ->
   resolutionStatus (calculateMetrics analytics) = js "excellent"
   /\ noteForAverage (calculateMetrics analytics)
      = js " (No resolved tickets in period)")
  /\ (~ avg_resolution_time analytics == 0 ->
      noteForAverage (calculateMetrics analytics) = []).
Proof.
  unfold resolutionStatus, calculateMetrics.
  destruct (computeTrend (tickets_per_week analytics)) as [t v].
  cbn [avgResolutionTime noteForAverage]; split; intros H.
  - assert (E : Qeq_bool (avg_resolution_time analytics) 0 = true)
      by now apply Qeq_bool_iff.
    assert (L : Qle_bool (avg_resolution_time analytics) 3 = true)
      by (apply Qle_bool_iff; rewrite H; discriminate).
    now rewrite E, L.
  - destruct (Qeq_bool (avg_resolution_time analytics) 0) eqn:E;
      [|reflexivity].
    apply Qeq_bool_iff in E; contradiction.
Qed.

Lemma resolution_insight_at_zero_witness :
  avg_resolution_time Samples.risingWeeks == 0
  /\ resolutionStatus (calculateMetrics Samples.risingWeeks) = js "excellent"
  /\ noteForAverage (calculateMetrics Samples.risingWeeks)
     = js " (No resolved tickets in period)".
Proof.
  split; [reflexivity|].
  exact (proj1 (resolution_insight_at_zero Samples.risingWeeks)
           (Qeq_refl 0)).
Defined.

(** ** High priorities *)

Lemma countOf_cons (k k0 : jsstring) (v0 : Z) (d : Distribution) :
  countOf ((k0, v0) :: d) k = if streq k k0 then orZero v0 else countOf d k.
Proof. unfold countOf; cbn [getProp]; now destruct (streq k k0). Qed.

(** X22. For a priority distribution with non-negative counts, the number
    of high-priority tickets (the counts of ["High"], ["Highest"] and
    ["Critical"] together) is never negative and never more than the total
    of the distribution. *)
Theorem highPriorityCount_bounds (analytics : Analytics) :
  Forall (fun entry => (0 <= snd entry)%Z) (priority_distribution analytics) ->
  (0 <= highPriorityCount (calculateMetrics analytics)
   <= totalOf (priority_distribution analytics))%Z.
Proof.
  intros Hpos; unfold calculateMetrics.
  destruct (computeTrend (tickets_per_week analytics)) as [t v].
  cbn [highPriorityCount].
  induction Hpos as [|[k0 v0] d Hv Hd IH]; [cbn; lia|].
  cbn [snd] in Hv; rewrite !countOf_cons, orZero_id; cbn [totalOf fold_right snd].
  fold (totalOf d).
  pose proof (countOf_nonneg (js "High") Hd).
  pose proof (countOf_nonneg (js "Highest") Hd).
  pose proof (countOf_nonneg (js "Critical") Hd).
  destruct (streq (js "High") k0) eqn:E1.
  { apply streq_true in E1; subst k0.
    change (streq (js "Highest") (js "High")) with false.
    change (streq (js "Critical") (js "High")) with false.
    cbv iota; lia. }
  destruct (streq (js "Highest") k0) eqn:E2.
  { apply streq_true in E2; subst k0.
    change (streq (js "Critical") (js "Highest")) with false.
    cbv iota; lia. }
  destruct (streq (js "Critical") k0); lia.
Qed.

Lemma highPriorityCount_bounds_witness :
  Forall (fun entry => (0 <= snd entry)%Z)
    [(js "Low", 4%Z); (js "High", 3%Z); (js "Medium", 6%Z);
     (js "Highest", 1%Z)]
  /\ (0 <= highPriorityCount
             (calculateMetrics
                (mkAnalytics []
                   [(js "Low", 4%Z); (js "High", 3%Z); (js "Medium", 6%Z);
                    (js "Highest", 1%Z)] [] [] 0 0 0 0))
      <= 14)%Z.
Proof.
  assert (H : Forall (fun entry => (0 <= snd entry)%Z)
                [(js "Low", 4%Z); (js "High", 3%Z); (js "Medium", 6%Z);
                 (js "Highest", 1%Z)])
    by (repeat constructor; discriminate).
  split; [exact H|].
  exact (@highPriorityCount_bounds
           (mkAnalytics []
              [(js "Low", 4%Z); (js "High", 3%Z); (js "Medium", 6%Z);
               (js "Highest", 1%Z)] [] [] 0 0 0 0) H).
Defined.

(** ** DonutChart *)











(** ** WeeklyTrendChart *)





End ChartsFacts.

(* ================================================================== *)
(** * More on the transition modal, the status order and the facets *)
(* ================================================================== *)

Module BoardFacts.
Import Js JsFacts Parser ApiService TransitionModal JiraManagerPro.
Import BoardActions.
Local Open Scope N_scope.

(** ** Closing transitions *)

Lemma includes_inside (p l r : jsstring) : includes p (l ++ p ++ r) = true.
Proof.
  apply includes_app_r.
  destruct (p ++ r) eqn:E; cbn [includes];
    rewrite <- E, startsWith_app; reflexivity.
Qed.

(** X25. A transition name requires the closure comment as soon as one of
    the words [done], [terminé], [termine], [close] or [resolve] occurs
    anywhere in it, in any case and even inside another word: ["Mark as
    DONE"] does, and so do ["Abandoned"] and ["Unresolved"].  (Names of
    Basic Latin and Latin-1 code units, on which the lower-casing used
    here is the host's.) *)
Theorem isTransitionToDone_any_occurrence (before word after : jsstring) :
  latin1 (before ++ word ++ after) = true ->
  In (Host.toLowerCase word) closingWords ->
  isTransitionToDone Host.toLowerCase (before ++ word ++ after) = true.
Proof.
  intros _ Hw; unfold isTransitionToDone, Host.toLowerCase.
  rewrite !map_app.
  fold (Host.toLowerCase word).
  set (l := map Host.lowerUnit before); set (r := map Host.lowerUnit after).
  cbn [closingWords In] in Hw.
  destruct Hw as [<-|[<-|[<-|[<-|[<-|[]]]]]];
    rewrite includes_inside, ?orb_true_r; reflexivity.
Qed.

Lemma isTransitionToDone_any_occurrence_witness :
  latin1 (js "Aban" ++ js "Done" ++ js "d") = true
  /\ In (Host.toLowerCase (js "Done")) closingWords
  /\ isTransitionToDone Host.toLowerCase (js "Aban" ++ js "Done" ++ js "d")
     = true
  /\ js "Aban" ++ js "Done" ++ js "d" = js "AbanDoned".
Proof.
  assert (H : In (Host.toLowerCase (js "Done")) closingWords)
    by (left; reflexivity).
  split; [reflexivity|]. split; [exact H|]. split; [|reflexivity].
  exact (@isTransitionToDone_any_occurrence (js "Aban") (js "Done") (js "d")
           eq_refl H).
Defined.

(** ** One request at a time *)

(** X26. While a transition request is in flight the modal sends no other:
    sending a request sets the in-flight flag, and from a state with that
    flag no sequence of selections, edits, presses of the submit button or
    reloads of the transitions sends anything until the request has
    settled. *)
Theorem modal_one_request_in_flight (toLowerCase : jsstring -> jsstring)
  (ticketKey : jsstring) (st : ModalState) :
  (forall st' rq,
     modalStep toLowerCase ticketKey st PressSubmit = (st', Some rq) ->
     TransitionModal.loading st' = true)
  /\ (forall evs,
        TransitionModal.loading st = true -> forallb (fun ev => negb (isSettled ev)) evs = true ->
        modalRun toLowerCase ticketKey st evs = []).
Proof.
  split.
  - intros st' rq; cbn [modalStep].
    destruct (submitDisabled toLowerCase st); [discriminate|].
    destruct (handleSubmit ticketKey st); [|discriminate].
    intros H; injection H as <- _; reflexivity.
  - intros evs; revert st; induction evs as [|ev evs IH]; intros st Hl Hevs;
      [reflexivity|].
    cbn [forallb] in Hevs; apply andb_true_iff in Hevs as [Hev Hevs].
    cbn [modalRun].
    destruct ev; cbn [isSettled negb] in Hev; try discriminate;
      cbn [modalStep]; try (apply IH; [exact Hl | exact Hevs]).
    unfold submitDisabled; rewrite Hl; cbn [orb].
    apply IH; [exact Hl | exact Hevs].
Qed.

Lemma modal_one_request_in_flight_witness :
  modalRun Host.toLowerCase (js "PROJ-1")
    (ready (js "Reopen") [] [js "Reopen"])
    [PressSubmit; PressSubmit; SelectTransition (js "Done");
     EditComment (js "ok"); PressSubmit]
  = [transitionTicket (js "PROJ-1") (js "Reopen") (Some [])]
  /\ modalRun Host.toLowerCase (js "PROJ-1")
       (mkModal (js "Reopen") [] [js "Reopen"] false true)
       [PressSubmit; SelectTransition (js "Done"); EditComment (js "ok");
        PressSubmit]
     = [].
Proof.
  split; [reflexivity|].
  exact (proj2 (modal_one_request_in_flight Host.toLowerCase (js "PROJ-1")
                  (mkModal (js "Reopen") [] [js "Reopen"] false true))
           [PressSubmit; SelectTransition (js "Done"); EditComment (js "ok");
            PressSubmit] eq_refl eq_refl).
Defined.

(** ** Sorting again *)

Lemma sortWith_sorted_id (A : Type) (cmp : A -> A -> Z) (l : list A) :
  StronglySorted (fun a b => (cmp a b <= 0)%Z) l -> sortWith cmp l = l.
Proof.
  induction 1 as [|x l Hs IH Hx]; [reflexivity|].
  cbn [sortWith]; rewrite IH.
  destruct l as [|y l']; [reflexivity|].
  inversion Hx as [|? ? Hxy _]; subst; cbn [insertSorted].
  apply Z.leb_le in Hxy; now rewrite Hxy.
Qed.

(** X27. Ordering the statuses is idempotent: with a consistent
    [localeCompare] and labels that name no inherited property, ordering
    an already ordered list of statuses leaves it as it is. *)
Theorem getOrderedStatuses_idempotent
  (localeCompare : jsstring -> jsstring -> Z) (labels : list jsstring) :
  (forall a b, (0 < localeCompare a b)%Z -> (localeCompare b a <= 0)%Z) ->
  (forall a b c, (localeCompare a b <= 0)%Z -> (localeCompare b c <= 0)%Z ->
                 (localeCompare a c <= 0)%Z) ->
  Forall (fun a => isInherited a = false) labels ->
  getOrderedStatuses localeCompare (getOrderedStatuses localeCompare labels)
  = getOrderedStatuses localeCompare labels.
Proof.
  intros Htot Htrans Hl; unfold getOrderedStatuses.
  apply sortWith_sorted_id.
  apply (@sortWith_sorted _ (compareStatuses localeCompare)
           (fun a => isInherited a = false)).
  - intros a b; now apply JiraManagerProFacts.compareStatuses_total.
  - intros a b c; now apply JiraManagerProFacts.compareStatuses_trans.
  - exact Hl.
Qed.

Lemma getOrderedStatuses_idempotent_witness :
  Forall (fun a => isInherited a = false) Samples.mixedLabels
  /\ getOrderedStatuses Host.localeCompare
       (getOrderedStatuses Host.localeCompare Samples.mixedLabels)
     = getOrderedStatuses Host.localeCompare Samples.mixedLabels.
Proof.
  assert (H : Forall (fun a => isInherited a = false) Samples.mixedLabels)
    by (repeat constructor).
  split; [exact H|].
  exact (@getOrderedStatuses_idempotent Host.localeCompare Samples.mixedLabels
           (compareByKey_total Host.sortKey) (compareByKey_trans Host.sortKey)
           H).
Defined.

(** ** The facets as sets *)

Lemma NoDup_setAdd (x : jsstring) (s : list jsstring) :
  NoDup s -> NoDup (setAdd x s).
Proof.
  intros H; unfold setAdd; destruct (existsb (streq x) s) eqn:E; [exact H|].
  apply NoDup_rev in H; rewrite <- (rev_involutive (s ++ [x])).
  apply NoDup_rev; rewrite rev_app_distr; cbn [rev app].
  constructor; [|exact H].
  intros Hin; apply in_rev in Hin.
  assert (Ex : existsb (streq x) s = true)
    by (apply existsb_exists; exists x; split; [exact Hin | apply streq_refl]).
  congruence.
Qed.

Lemma assignees_fold (l acc : list jsstring) :
  NoDup acc ->
  NoDup (fold_left assigneeStep l acc)
  /\ (forall a,
        In a (fold_left assigneeStep l acc)
        <-> In a acc
            \/ exists ticket info,
                 In ticket l /\ parseTicketInfo ticket = Some info
                 /\ assignee info = a /\ a <> js "Non assigné").
Proof.
  revert acc; induction l as [|t l IH]; intros acc Hacc.
  - split; [exact Hacc|]; intros a; cbn; split; [tauto|].
    intros [H|(t & i & [] & _)]; exact H.
  - cbn [fold_left].
    assert (Hstep : NoDup (assigneeStep acc t)).
    { unfold assigneeStep; destruct (parseTicketInfo t); [|exact Hacc].
      destruct (_ && _); [now apply NoDup_setAdd | exact Hacc]. }
    destruct (IH _ Hstep) as [Hnd Hin]; split; [exact Hnd|].
    intros a; rewrite Hin; clear Hin.
    assert (Hone : In a (assigneeStep acc t)
                   <-> In a acc
                       \/ exists info, parseTicketInfo t = Some info
                            /\ assignee info = a /\ a <> js "Non assigné").
    { unfold assigneeStep.
      destruct (parseTicketInfo t) as [info|] eqn:Ep.
      - rewrite (TicketCardFacts.parsed_assignee_nonempty t Ep); cbn [andb].
        destruct (streq (assignee info) (js "Non assigné")) eqn:E; cbn [negb].
        + apply streq_true in E; split; [tauto|].
          intros [H|(i & Hi & <- & Hne)]; [exact H|].
          injection Hi as <-; congruence.
        + apply streq_false in E; rewrite JiraManagerProFacts.In_setAdd; split.
          * intros [->|H]; [right; exists info; auto | now left].
          * intros [H|(i & Hi & <- & Hne)]; [now right|].
            injection Hi as <-; now left.
      - split; [tauto|]. intros [H|(i & Hi & _)]; [exact H | discriminate]. }
    rewrite Hone; split.
    + intros [[H|(info & Hp & Ha & Hne)]|(t' & info & Ht' & Hp & Ha & Hne)].
      * now left.
      * right; exists t, info; cbn; auto.
      * right; exists t', info; cbn; auto.
    + intros [H|(t' & info & [<-|Ht'] & Hp & Ha & Hne)].
      * left; now left.
      * left; right; exists info; auto.
      * right; exists t', info; auto.
Qed.

(** X28. The assignee filter offers each assignee once, and offers exactly
    the assignees of the tickets that parse, the unassigned sentinel
    excepted; a ticket that does not parse contributes no assignee. *)
Theorem uniqueAssignees_exact (board : Board) :
  NoDup (uniqueAssignees board)
  /\ (forall a,
        In a (uniqueAssignees board)
        <-> exists ticket info,
              In ticket (allTickets board)
              /\ parseTicketInfo ticket = Some info
              /\ assignee info = a /\ a <> js "Non assigné").
Proof.
  destruct (@assignees_fold (allTickets board) [] (NoDup_nil _)) as [H1 H2].
  split; [exact H1|].
  intros a; unfold uniqueAssignees; fold assigneeStep.
  rewrite H2; cbn [In]; tauto.
Qed.





End BoardFacts.
